(** * 3D vision workshop: projections, PnP and dense stereo matching

    A shallow embedding of the numerical code of the workshop notebooks.

    - [Projection]: notebook 04 ([project_points_simple], [project_points],
      [solve_pnp] and the cell that calls it), translated from the notebook.
    - [Arrays], [Notebook]: the other cells of notebook 04 (the grid of
      points, the reshapes around the projections, the sliders,
      [project_points_with_jacobian] and the test of the last cell).
    - [BlockMatching], [PlaneSweeping]: functions that notebook 08 imports
      from the package [oaf_vision_3d].  Only the calls are in the
      notebooks, so the two are modelled from the written specification,
      and every definition that is says so.

    Arrays of [float32] are lists of records over a number type [F] with the
    operations of the class [Arith]; the instance that the theorems are
    about is IEEE binary32 ([Float32], executable, from the standard
    library's [SpecFloat]). *)

From Stdlib Require Import ZArith QArith Qround Qminmax List Sorted Bool Lia.
From Stdlib Require Import Floats.SpecFloat.
Import ListNotations.

Set Implicit Arguments.

(* ================================================================= *)
(** ** Numbers *)

(** The arithmetic the notebooks use on array elements. *)
Class Arith (F : Type) : Type := {
  fzero : F;
  fone : F;
  fadd : F -> F -> F;
  fmul : F -> F -> F;
  fdiv : F -> F -> F
}.

Declare Scope arith_scope.
Delimit Scope arith_scope with ar.
Infix "+" := fadd : arith_scope.
Infix "*" := fmul : arith_scope.
Infix "/" := fdiv : arith_scope.

(** IEEE 754 binary32, the [np.float32] of the notebooks. *)
Module Float32.

Definition prec : Z := 24.
Definition emax : Z := 128.

Definition float32 : Type := spec_float.

Definition nan : float32 := S754_nan.
Definition of_Z (z : Z) : float32 := binary_normalize prec emax z 0 false.

Definition add : float32 -> float32 -> float32 := SFadd prec emax.
Definition mul : float32 -> float32 -> float32 := SFmul prec emax.
Definition sub : float32 -> float32 -> float32 := SFsub prec emax.
Definition div : float32 -> float32 -> float32 := SFdiv prec emax.
Definition abs : float32 -> float32 := SFabs.
Definition ltb : float32 -> float32 -> bool := SFltb.

(** [np.isfinite]. *)
Definition is_finite (x : float32) : bool :=
  match x with
  | S754_zero _ | S754_finite _ _ _ => true
  | S754_infinity _ | S754_nan => false
  end.

(** Infinite or NaN. *)
Definition nonfinite (x : float32) : Prop := is_finite x = false.

(** [np.isnan]. *)
Definition is_nan (x : float32) : bool :=
  match x with
  | S754_nan => true
  | _ => false
  end.

(** [x == 0.0]: either signed zero. *)
Definition is_zero (x : float32) : bool :=
  match x with
  | S754_zero _ => true
  | _ => false
  end.

(** A finite number in its canonical representation that is not the
    negative zero. *)
Definition plain (x : float32) : bool :=
  match x with
  | S754_zero s => negb s
  | S754_finite _ m e => SpecFloat.bounded prec emax m e
  | S754_infinity _ | S754_nan => false
  end.

End Float32.

#[global] Instance float32_arith : Arith Float32.float32 := {
  fzero := S754_zero false;
  fone := Float32.of_Z 1;
  fadd := Float32.add;
  fmul := Float32.mul;
  fdiv := Float32.div
}.

(* ================================================================= *)
(** ** Notebook 04: 3D-2D projections and PnP *)

Module Projection.

(** A row of an [NDArray[Shape["*, 3"], Float32]]. *)
Record vec3 (F : Type) : Type := mk3 { vx : F; vy : F; vz : F }.

(** A row of an [NDArray[Shape["*, 2"], Float32]]: a pixel. *)
Record vec2 (F : Type) : Type := mk2 { px : F; py : F }.

(** A 3x3 matrix, by rows. *)
Definition mat3 (F : Type) : Type := vec3 (vec3 F).

(** Modelled from the spec: the class [oaf_vision_3d.lens_model.LensModel]
    is not in the sources.  This is the part of its interface that the
    notebook calls: it passes arrays of pixels to [distort_pixels] and
    [denormalize_pixels] and gets arrays of the same shape back, so both are
    taken as maps of a function on one pixel. *)
Class LensOps (F : Type) (LensModel : Type) : Type := {
  distort_pixel : LensModel -> vec2 F -> vec2 F;
  denormalize_pixel : LensModel -> vec2 F -> vec2 F
}.

Section WithArith.

Context {F : Type} `{Arith F}.
Context {LensModel : Type} `{LensOps F LensModel}.

Local Open Scope arith_scope.

Definition zero_vec : vec3 F := mk3 fzero fzero fzero.

Definition identity : mat3 F :=
  mk3 (mk3 fone fzero fzero) (mk3 fzero fone fzero) (mk3 fzero fzero fone).

(** [m.T] *)
Definition transpose (m : mat3 F) : mat3 F :=
  mk3 (mk3 (vx (vx m)) (vx (vy m)) (vx (vz m)))
      (mk3 (vy (vx m)) (vy (vy m)) (vy (vz m)))
      (mk3 (vz (vx m)) (vz (vy m)) (vz (vz m))).

(** One row of [points @ m]: the row vector [p] times the matrix [m], every
    product and every sum rounded.  NumPy hands a [float32] product to the
    linear-algebra library, which fixes neither the order of the sums nor
    whether a product is rounded before it is added; this definition is
    that product wherever the products and the sums are exact, as they are
    for the identity matrix, and the theorems in binary32 use it for the
    identity matrix only. *)
Definition row_matmul (p : vec3 F) (m : mat3 F) : vec3 F :=
  mk3 (vx p * vx (vx m) + vy p * vx (vy m) + vz p * vx (vz m))
      (vx p * vy (vx m) + vy p * vy (vy m) + vz p * vy (vz m))
      (vx p * vz (vx m) + vy p * vz (vy m) + vz p * vz (vz m)).

(** [points @ m] for [points] of shape (N, 3). *)
Definition matmul (points : list (vec3 F)) (m : mat3 F) : list (vec3 F) :=
  map (fun p => row_matmul p m) points.

(** [points + t[None, :]] *)
Definition add_row (points : list (vec3 F)) (t : vec3 F) : list (vec3 F) :=
  map (fun p => mk3 (vx p + vx t) (vy p + vy t) (vz p + vz t)) points.

(** [lens_model.distort_pixels] and [lens_model.denormalize_pixels] on an
    array of shape (H, W, 2). *)
Definition distort_pixels (lens_model : LensModel)
    (normalized_pixels : list (list (vec2 F))) : list (list (vec2 F)) :=
  map (map (distort_pixel lens_model)) normalized_pixels.

Definition denormalize_pixels (lens_model : LensModel)
    (pixels : list (list (vec2 F))) : list (list (vec2 F)) :=
  map (map (denormalize_pixel lens_model)) pixels.

(** [points[None, :, :2] / points[None, :, 2:]]: one row of N pixels, the
    division broadcast over the two columns. *)
Definition divide_by_z (points : list (vec3 F)) : list (list (vec2 F)) :=
  [ map (fun p => mk2 (vx p / vz p) (vy p / vz p)) points ].

Definition project_points_simple (points : list (vec3 F))
    (lens_model : LensModel) : list (vec2 F) :=
  let undistorted_normalized_pixels := divide_by_z points in
  let normalized_pixels :=
    distort_pixels lens_model undistorted_normalized_pixels in
  nth 0 (denormalize_pixels lens_model normalized_pixels) [].

(** [cv2.Rodrigues] is OpenCV's; it is a parameter here. *)
Variable Rodrigues : vec3 F -> mat3 F.

Definition project_points (points : list (vec3 F)) (rvec tvec : vec3 F)
    (lens_model : LensModel) : list (vec2 F) :=
  let rotation_matrix := Rodrigues rvec in
  let transformed_points :=
    add_row (matmul points (transpose rotation_matrix)) tvec in
  project_points_simple transformed_points lens_model.

(** The transform in the words of the notebook's text: rotate the point
    with the rotation matrix, then translate it: [R p + t] with [p] a
    column vector. *)
Definition rigid_transform (R : mat3 F) (t : vec3 F) (p : vec3 F) : vec3 F :=
  mk3 (vx (vx R) * vx p + vy (vx R) * vy p + vz (vx R) * vz p + vx t)
      (vx (vy R) * vx p + vy (vy R) * vy p + vz (vy R) * vz p + vy t)
      (vx (vz R) * vx p + vy (vz R) * vy p + vz (vz R) * vz p + vz t).

(** [def solve_pnp(...) -> tuple[...]: ...]: the body is the ellipsis
    expression, so the call evaluates it and falls off the end of the
    function, which returns [None]. *)
Definition solve_pnp (points : list (vec3 F)) (pixels : list (vec2 F))
    (lens_model : LensModel) (rvec tvec : vec3 F) (epsilon : F)
    (max_iterations : Z) : option (vec3 F * vec3 F) :=
  None.

(** [v * s] for an array [v] of shape (3,) and a scalar [s]. *)
Definition scale (v : vec3 F) (s : F) : vec3 F :=
  mk3 (vx v * s) (vy v * s) (vz v * s).

(** The conditional expression of the cell that calls [solve_pnp]:
    [(rvec_initial * np.nan, tvec_initial * np.nan) if rvec_tvec is None
     else (rvec_tvec[0], rvec_tvec[1])]. *)
Definition found_or_nan (nan : F) (rvec_initial tvec_initial : vec3 F)
    (rvec_tvec : option (vec3 F * vec3 F)) : vec3 F * vec3 F :=
  match rvec_tvec with
  | None => (scale rvec_initial nan, scale tvec_initial nan)
  | Some rt => (fst rt, snd rt)
  end.

End WithArith.

(** The lens model of the notebooks: [LensModel(camera_matrix=CameraMatrix(
    fx, fy, cx, cy), distortion_coefficients=DistortionCoefficients(k1, k2,
    p1, ...))]. *)
Record CameraMatrix (F : Type) : Type :=
  { fx : F; fy : F; cx : F; cy : F }.

Record DistortionCoefficients (F : Type) : Type :=
  { k1 : F; k2 : F; p1 : F; p2 : F; k3 : F }.

Record LensModel (F : Type) : Type := {
  camera_matrix : CameraMatrix F;
  distortion_coefficients : DistortionCoefficients F
}.

Section BrownConrady.

Context {F : Type} `{Arith F}.
Local Open Scope arith_scope.

Definition two : F := fone + fone.

(** Modelled from the spec: [LensModel.distort_pixels] is not in the
    sources.  The notebook gives the same camera matrix and coefficients
    ([as_matrix], [as_opencv_vector]) to [cv2.projectPoints] and
    [cv2.solvePnP] as an equal of its own projection, so the distortion
    is OpenCV's radial and tangential model on the coefficients
    (k1, k2, p1, p2, k3). *)
Definition brown_conrady_distort (lm : LensModel F) (q : vec2 F) : vec2 F :=
  let d := distortion_coefficients lm in
  let x := px q in
  let y := py q in
  let r2 := x * x + y * y in
  let radial := fone + k1 d * r2 + k2 d * r2 * r2 + k3 d * r2 * r2 * r2 in
  mk2 (x * radial + two * p1 d * x * y + p2 d * (r2 + two * x * x))
      (y * radial + p1 d * (r2 + two * y * y) + two * p2 d * x * y).

(** Modelled from the spec: [LensModel.denormalize_pixels] is not in the
    sources; the camera matrix K of the notebook's text maps a normalized
    pixel to [(fx x + cx, fy y + cy)]. *)
Definition brown_conrady_denormalize (lm : LensModel F) (q : vec2 F) : vec2 F :=
  let c := camera_matrix lm in
  mk2 (fx c * px q + cx c) (fy c * py q + cy c).

#[export] Instance brown_conrady_ops : LensOps F (LensModel F) := {
  distort_pixel := brown_conrady_distort;
  denormalize_pixel := brown_conrady_denormalize
}.

End BrownConrady.

(** The cell that calls [solve_pnp], in binary32. *)
Section PnpCell.

Import Float32.
Context {L : Type} `{LensOps float32 L}.

Definition rvec_initial : vec3 float32 := mk3 (of_Z 0) (of_Z 0) (of_Z 0).
Definition tvec_initial : vec3 float32 := mk3 (of_Z 0) (of_Z 0) (of_Z 100).

(** The defaults [epsilon = 1e-5] and [max_iterations = 100] of
    [solve_pnp], which the cell does not override. *)
Definition default_epsilon : float32 := div (of_Z 1) (of_Z 100000).
Definition default_max_iterations : Z := 100.

Definition pnp_cell (points : list (vec3 float32))
    (detected_pixels : list (vec2 float32)) (lens_model : L)
    : vec3 float32 * vec3 float32 :=
  let rvec_tvec :=
    solve_pnp points detected_pixels lens_model rvec_initial tvec_initial
      default_epsilon default_max_iterations in
  found_or_nan nan rvec_initial tvec_initial rvec_tvec.

End PnpCell.

(** The array [[nan, nan, nan]]. *)
Definition nan_vec : vec3 Float32.float32 :=
  mk3 Float32.nan Float32.nan Float32.nan.

(** A map on pixels through which infinite and NaN coordinates pass. *)
Definition propagates_nonfinite
    (f : vec2 Float32.float32 -> vec2 Float32.float32) : Prop :=
  forall q, Float32.nonfinite (px q) -> Float32.nonfinite (py q) ->
            Float32.nonfinite (px (f q)) /\ Float32.nonfinite (py (f q)).

(** A point whose three coordinates are plain binary32 numbers. *)
Definition plain_point (p : vec3 Float32.float32) : bool :=
  Float32.plain (vx p) && Float32.plain (vy p) && Float32.plain (vz p).

(** A lens without distortion whose camera matrix is the identity: it hands
    every pixel back as it is. *)
Definition pass_through : LensOps Float32.float32 unit :=
  {| distort_pixel := fun _ q => q; denormalize_pixel := fun _ q => q |}.

(** The lens model of the first cell of notebook 04: focal lengths 2500,
    principal point (1250, 1000), k1 = 0.3, k2 = -0.1, p1 = -0.02 and the
    other coefficients left at zero. *)
Definition notebook_lens_model {F : Type} `{Arith F} (of_Z : Z -> F)
    : LensModel F :=
  {| camera_matrix :=
       {| fx := of_Z 2500%Z; fy := of_Z 2500%Z; cx := of_Z 1250%Z; cy := of_Z 1000%Z |};
     distortion_coefficients :=
       {| k1 := fdiv (of_Z 3%Z) (of_Z 10%Z);
          k2 := fdiv (of_Z (-1)%Z) (of_Z 10%Z);
          p1 := fdiv (of_Z (-2)%Z) (of_Z 100%Z);
          p2 := fzero;
          k3 := fzero |} |}.

End Projection.

(* ================================================================= *)
(** ** Dense stereo matching: what the two functions share *)

(** A grid of single-channel samples, by rows. *)
Definition image (sample : Type) : Type := list (list sample).

(** Modelled from the spec: the similarity score of [block_matching] and
    [plane_sweeping], which are not in the sources.  Section 4.1 leaves the
    score open (a sum of squared or of absolute differences, for example),
    so the score of two windows and the order of the scores are an
    interface. *)
Class Similarity (sample cost : Type) : Type := {
  score : list (list sample) -> list (list sample) -> cost;
  cost_ltb : cost -> cost -> bool
}.

(** The scores that can be compared, [ordered], are ordered as a strict
    weak order: all of them for exact scores, all but NaN for scores in
    binary32. *)
Class StrictWeakOrder {cost : Type} (ordered : cost -> Prop)
    (ltb : cost -> cost -> bool) : Prop := {
  ltb_irrefl : forall a, ordered a -> ltb a a = false;
  ltb_trans : forall a b c, ordered a -> ordered b -> ordered c ->
    ltb a b = true -> ltb b c = true -> ltb a c = true;
  ltb_below : forall a b c, ordered a -> ordered b -> ordered c ->
    ltb a b = true -> ltb c b = false -> ltb a c = true
}.

(** Modelled from the spec: the precondition violations of section 7 (a),
    reported at the call. *)
Inductive precondition_error : Type :=
  | MismatchedShapes
  | EvenBlockSize
  | InvalidRange
  | InvalidStepSize
  | MismatchedLengths.

(** The element of a grid at row [y] and column [x]. *)
Definition grid_at {A : Type} (grid : list (list A)) (y x : nat) : option A :=
  match nth_error grid y with
  | Some row => nth_error row x
  | None => None
  end.

Module Search.

Section Window.

Context {sample : Type}.

Definition height (im : image sample) : Z := Z.of_nat (length im).
Definition width (im : image sample) : Z := Z.of_nat (length (hd [] im)).

(** Modelled from the spec: the precondition "equal-shape images" of
    section 4.1, the same rows of the same lengths. *)
Definition same_shape (a b : image sample) : bool :=
  if list_eq_dec Nat.eq_dec (map (@length sample) a) (map (@length sample) b)
  then true else false.

(** Modelled from the spec: "whose window fits fully inside the image"
    (section 4.1).  The window of half-sizes [(hh, hw)] centred on [(y, x)]
    lies inside a grid of [h] rows and [w] columns. *)
Definition fits (h w y x hh hw : Z) : bool :=
  ((hh <=? y) && (y + hh <? h) && (hw <=? x) && (x + hw <? w))%Z.

(** Modelled from the spec: the similarity window of section 4.1, rows
    [y - hh .. y + hh] and columns [x - hw .. x + hw] of the image. *)
Definition window (im : image sample) (y x hh hw : Z) : list (list sample) :=
  map (fun row => firstn (Z.to_nat (2 * hw + 1)) (skipn (Z.to_nat (x - hw)) row))
      (firstn (Z.to_nat (2 * hh + 1)) (skipn (Z.to_nat (y - hh)) im)).

End Window.

(** [0, 1, ..., n - 1] *)
Definition indices (n : nat) : list Z := map Z.of_nat (seq 0 n).

(** Modelled from the spec: the precondition on the block size, "(height,
    width) of the similarity window, both odd" (section 4.1): two sizes,
    so positive, and odd. *)
Definition odd_block (block_size : Z * Z) : bool :=
  ((0 <? fst block_size) && Z.odd (fst block_size)
   && (0 <? snd block_size) && Z.odd (snd block_size))%Z.

Section Argmin.

Context {K cost : Type}.
Variable ltb : cost -> cost -> bool.
Variable eval : K -> option cost.

(** Modelled from the spec: "select the disparity minimizing the score;
    ties broken by first-encountered candidate" (section 4.1), and the same
    for depths (section 4.2).  One step of the search: a candidate that has
    a score replaces the best one so far only when its score is strictly
    smaller, so among equal scores the first one met stays. *)
Definition better (best : option (K * cost)) (k : K) : option (K * cost) :=
  match eval k, best with
  | None, _ => best
  | Some c, None => Some (k, c)
  | Some c, Some (_, c0) => if ltb c c0 then Some (k, c) else best
  end.

Definition argmin_from (best : option (K * cost)) (candidates : list K)
    : option (K * cost) :=
  fold_left better candidates best.

Definition argmin (candidates : list K) : option (K * cost) :=
  argmin_from None candidates.

(** What the search has established after the candidates [seen]: the
    best one sits somewhere in [seen], every candidate before it scores
    strictly more, and none after it scores strictly less. *)
Definition best_of (seen : list K) (best : option (K * cost)) : Prop :=
  match best with
  | None => forall k, In k seen -> eval k = None
  | Some (k0, c0) =>
      eval k0 = Some c0 /\
      exists before after,
        seen = before ++ k0 :: after
        /\ (forall k c, In k before -> eval k = Some c -> ltb c0 c = true)
        /\ (forall k c, In k after -> eval k = Some c -> ltb c c0 = false)
  end.

End Argmin.

End Search.

(* ================================================================= *)
(** ** Block matching *)

Module BlockMatching.

Import Search.

(** [0, -1, 1, -2, 2, ..., -n, n] *)
Definition by_magnitude (n : nat) : list Z :=
  0%Z :: flat_map (fun i => [(- Z.of_nat (S i))%Z; Z.of_nat (S i)]) (seq 0 n).

(** Modelled from the spec: "every candidate disparity in range", the range
    being inclusive, with "ties broken by first-encountered (lowest
    magnitude) candidate" (section 4.1).  The candidates are met in the
    order of increasing magnitude, the order in which the first candidate
    met among equals is one of lowest magnitude.  Which of two candidates of
    one magnitude is met first the spec does not say; here it is the
    negative one. *)
Definition candidates (dmin dmax : Z) : list Z :=
  filter (fun d => (dmin <=? d)%Z && (d <=? dmax)%Z)
    (by_magnitude (Z.to_nat (Z.max (Z.abs dmin) (Z.abs dmax)))).

(** The order in which the candidates are met: by magnitude, the negative
    one of two of one magnitude first. *)
Definition precedes (a b : Z) : Prop :=
  (Z.abs a < Z.abs b \/ (Z.abs a = Z.abs b /\ a < b))%Z.

Section WithSimilarity.

Context {sample cost : Type} {similarity : Similarity sample cost}.

Local Open Scope Z_scope.

(** Modelled from the spec: the score of candidate [d] at pixel [(y, x)]
    of [image_0] (section 4.1): its window against the window of [image_1]
    at the matching point [(y, x + d)], the disparity being the "horizontal
    pixel offset to the matching point" of section 3.  A shifted window that
    leaves [image_1] has no score. *)
Definition candidate_score (image_0 image_1 : image sample)
    (hh hw y x d : Z) : option cost :=
  if fits (height image_1) (width image_1) y (x + d) hh hw
  then Some (score (window image_0 y x hh hw) (window image_1 y (x + d) hh hw))
  else None.

(** Modelled from the spec: the disparity of one pixel (section 4.1), with
    the invalid marker [None] on the border, where the window leaves
    [image_0], and where no candidate has a score. *)
Definition pixel_disparity (image_0 image_1 : image sample)
    (disparity_range : Z * Z) (hh hw y x : Z) : option Z :=
  if fits (height image_0) (width image_0) y x hh hw
  then option_map fst
         (argmin cost_ltb (candidate_score image_0 image_1 hh hw y x)
            (candidates (fst disparity_range) (snd disparity_range)))
  else None.

Definition disparity_map (image_0 image_1 : image sample)
    (disparity_range : Z * Z) (block_size : Z * Z) : list (list (option Z)) :=
  let hh := fst block_size / 2 in
  let hw := snd block_size / 2 in
  map (fun y =>
         map (fun x => pixel_disparity image_0 image_1 disparity_range hh hw y x)
             (indices (length (hd [] image_0))))
      (indices (length image_0)).

(** Modelled from the spec: [oaf_vision_3d.block_matching.block_matching]
    is not in the sources (notebook 08 only calls it).  Section 4.1: equal
    shapes and an odd block size are preconditions, reported at once; every
    pixel whose window fits gets the candidate of the inclusive range with
    the smallest score, the first met among equals; the other pixels get
    the invalid marker. *)
Definition block_matching (image_0 image_1 : image sample)
    (disparity_range : Z * Z) (block_size : Z * Z)
    : precondition_error + list (list (option Z)) :=
  if negb (same_shape image_0 image_1) then inl MismatchedShapes
  else if negb (odd_block block_size) then inl EvenBlockSize
  else if snd disparity_range <? fst disparity_range then inl InvalidRange
  else inr (disparity_map image_0 image_1 disparity_range block_size).

End WithSimilarity.

End BlockMatching.

(* ================================================================= *)
(** ** Plane sweeping *)

(** Modelled from the spec: the geometry of [plane_sweeping], as an
    interface.  The lens models and the relative poses are the package's
    own, not in the sources, and section 4.2 names the operations without
    fixing their formulas. *)
Class Geometry (lens pose point coord : Type) : Type := {
  (** the 3D point of reference pixel [(y, x)] at a depth *)
  back_project : lens -> Z * Z -> Q -> point;
  (** a point moved into the frame of a secondary camera *)
  transform : pose -> point -> point;
  (** a point projected into an image, distortion included *)
  project : lens -> point -> coord
}.

(** Modelled from the spec: step 3 of section 4.2, sampling an image at a
    coordinate that need not be integer; [None] when the coordinate is out
    of bounds. *)
Class Sampler (sample coord : Type) : Type := {
  sample_at : image sample -> coord -> option sample
}.

(** Modelled from the spec: step 4 of section 4.2, the scores of the
    secondary images combined into one cost (their mean, for example). *)
Class Aggregate (cost : Type) : Type := {
  combine_costs : list cost -> cost
}.

(** Modelled from the spec: the condition under which [plane_sweeping]
    returns no grid at all.  Sections 4.2 and 7 (c) allow that only when
    the grid is entirely invalid, and section 9 leaves open when, among
    those grids, it happens; so the condition is a parameter, asked about
    entirely invalid grids only. *)
Class Fallback (point : Type) : Type := {
  falls_back : list (list (option point)) -> bool
}.

(** [Some] of all the values when none is missing. *)
Fixpoint all_some {A : Type} (l : list (option A)) : option (list A) :=
  match l with
  | [] => Some []
  | None :: _ => None
  | Some a :: l' => option_map (cons a) (all_some l')
  end.

(** The values that are there. *)
Fixpoint present {A : Type} (l : list (option A)) : list A :=
  match l with
  | [] => []
  | None :: l' => present l'
  | Some a :: l' => a :: present l'
  end.

Definition is_none {A : Type} (o : option A) : bool :=
  match o with None => true | Some _ => false end.

(** Modelled from the spec: "the result grid is entirely invalid"
    (section 4.2): every element of the grid is the invalid marker. *)
Definition entirely_invalid {A : Type} (grid : list (list (option A))) : bool :=
  forallb (forallb is_none) grid.

(** Modelled from the spec: "returns wholly-absent result only when the
    result grid is entirely invalid, otherwise returns the point grid with
    per-pixel validity" (sections 4.2 and 7 (c)). *)
Definition whole_result {point : Type} {fallback : Fallback point}
    (grid : list (list (option point)))
    : option (list (list (option point))) :=
  if entirely_invalid grid && falls_back grid then None else Some grid.

Module PlaneSweeping.

Import Search.

(** Modelled from the spec: the candidate depths of section 4.2, from the
    minimum in steps of [step_size], both ends included, the last step
    clipped to the maximum. *)
Definition depth_candidates (dmin dmax step_size : Q) : list Q :=
  let n := Z.to_nat (Qceiling ((dmax - dmin) / step_size)) in
  map (fun i => Qmin (dmin + inject_Z (Z.of_nat i) * step_size) dmax)
      (seq 0 (S n)).

(** [-h, ..., h] *)
Definition offsets (h : Z) : list Z :=
  map (fun i => (Z.of_nat i - h)%Z) (seq 0 (Z.to_nat (2 * h + 1))).

Section WithGeometry.

Context {sample cost lens pose point coord : Type}.
Context {similarity : Similarity sample cost} {aggregate : Aggregate cost}.
Context {geometry : Geometry lens pose point coord}
  {sampler : Sampler sample coord} {fallback : Fallback point}.

(** Modelled from the spec: steps 1 to 3 of section 4.2 for one secondary
    image and one depth.  Every pixel of the window is back-projected to
    the depth, moved by the relative pose, projected with the secondary
    lens model and sampled there.  One projection out of bounds and the
    secondary does not contribute. *)
Definition warped_window (lens_model : lens)
    (secondary : image sample * lens * pose) (hh hw y x : Z) (depth : Q)
    : option (list (list sample)) :=
  let '(secondary_image, secondary_lens_model, secondary_transform) :=
    secondary in
  all_some
    (map (fun dy =>
            all_some
              (map (fun dx =>
                      sample_at secondary_image
                        (project secondary_lens_model
                           (transform secondary_transform
                              (back_project lens_model
                                 (y + dy, x + dx)%Z depth))))
                   (offsets hw)))
         (offsets hh)).

(** Modelled from the spec: step 4 of section 4.2, the cost of a depth at a
    pixel, from the secondary images that contribute; none when no
    secondary does. *)
Definition depth_cost (reference : image sample) (lens_model : lens)
    (secondaries : list (image sample * lens * pose)) (hh hw y x : Z)
    (depth : Q) : option cost :=
  let scores :=
    present
      (map (fun secondary =>
              option_map (score (window reference y x hh hw))
                (warped_window lens_model secondary hh hw y x depth))
           secondaries) in
  match scores with
  | [] => None
  | _ :: _ => Some (combine_costs scores)
  end.

(** Modelled from the spec: the output of section 4.2 for one pixel, the
    pixel back-projected at the depth of least cost; the marker [None]
    when the window leaves the reference image or no depth has a cost. *)
Definition pixel_point (reference : image sample) (lens_model : lens)
    (secondaries : list (image sample * lens * pose))
    (depths : list Q) (hh hw y x : Z) : option point :=
  if fits (height reference) (width reference) y x hh hw
  then option_map (fun best => back_project lens_model (y, x) (fst best))
         (argmin cost_ltb
            (depth_cost reference lens_model secondaries hh hw y x) depths)
  else None.

Definition point_grid (reference : image sample) (lens_model : lens)
    (secondaries : list (image sample * lens * pose))
    (depths : list Q) (block_size : Z * Z) : list (list (option point)) :=
  let hh := (fst block_size / 2)%Z in
  let hw := (snd block_size / 2)%Z in
  map (fun y =>
         map (fun x => pixel_point reference lens_model secondaries depths
                         hh hw y x)
             (indices (length (hd [] reference))))
      (indices (length reference)).

(** Modelled from the spec: the parallel lists of section 4.2 have one
    length, at least one. *)
Definition same_lengths (secondary_images : list (image sample))
    (secondary_lens_models : list lens) (secondary_transforms : list pose)
    : bool :=
  (length secondary_images =? length secondary_lens_models)%nat
  && (length secondary_images =? length secondary_transforms)%nat
  && (1 <=? length secondary_images)%nat.

(** Modelled from the spec: the grid that a call of [plane_sweeping]
    sweeps, before the test for an absent result. *)
Definition swept_grid (reference : image sample) (lens_model : lens)
    (secondary_images : list (image sample))
    (secondary_lens_models : list lens) (secondary_transforms : list pose)
    (depth_range : Q * Q) (step_size : Q) (block_size : Z * Z)
    : list (list (option point)) :=
  point_grid reference lens_model
    (combine (combine secondary_images secondary_lens_models)
             secondary_transforms)
    (depth_candidates (fst depth_range) (snd depth_range) step_size)
    block_size.

(** Modelled from the spec: [oaf_vision_3d.plane_sweeping.plane_sweeping]
    is not in the sources (notebook 08 only calls it and tests the result
    against [None]).  Section 4.2: mismatched list lengths, a zero or
    negative step size, an inverted range and an even block size are
    precondition violations; otherwise every pixel gets the point of its
    best depth or the marker, and the whole result may be absent when the
    grid is entirely invalid. *)
Definition plane_sweeping (reference : image sample) (lens_model : lens)
    (secondary_images : list (image sample))
    (secondary_lens_models : list lens) (secondary_transforms : list pose)
    (depth_range : Q * Q) (step_size : Q) (block_size : Z * Z)
    : precondition_error + option (list (list (option point))) :=
  if negb (same_lengths secondary_images secondary_lens_models
             secondary_transforms)
  then inl MismatchedLengths
  else if Qle_bool step_size 0 then inl InvalidStepSize
  else if negb (Qle_bool (fst depth_range) (snd depth_range))
  then inl InvalidRange
  else if negb (odd_block block_size) then inl EvenBlockSize
  else
    let secondaries :=
      combine (combine secondary_images secondary_lens_models)
              secondary_transforms in
    let depths :=
      depth_candidates (fst depth_range) (snd depth_range) step_size in
    inr (whole_result
           (point_grid reference lens_model secondaries depths block_size)).

End WithGeometry.

End PlaneSweeping.

(* ================================================================= *)
(** ** Scores and test images *)

Module Scenario.

Import Search.

(** The sum of absolute differences of two windows, on integer samples and
    on binary32 samples. *)
Definition sad_Z (a b : list (list Z)) : Z :=
  fold_left Z.add
    (map (fun ab => Z.abs (fst ab - snd ab)) (combine (concat a) (concat b)))
    0%Z.

Definition sad_float32 (a b : list (list Float32.float32)) : Float32.float32 :=
  fold_left Float32.add
    (map (fun ab => Float32.abs (Float32.sub (fst ab) (snd ab)))
         (combine (concat a) (concat b)))
    (Float32.of_Z 0).

#[export] Instance similarity_float32
    : Similarity Float32.float32 Float32.float32 :=
  {| score := sad_float32; cost_ltb := Float32.ltb |}.

(** An 8x8 uniform gradient in [0, 1]: the sample of column [x] is
    [(x + shift) / 16] in every row. *)
Definition gradient (shift : Z) : image Float32.float32 :=
  repeat
    (map (fun x => Float32.div (Float32.of_Z (x + shift)) (Float32.of_Z 16))
         (indices 8))
    8.

(** Two gradients that differ by a shift of two pixels: the sample of
    [image_0] at column [x] is the sample of [image_1] at column [x + 2]. *)
Definition gradient_0 : image Float32.float32 := gradient 2.
Definition gradient_1 : image Float32.float32 := gradient 0.

(** An 8x8 image of the one value 1/2, in which all windows are equal. *)
Definition flat : image Float32.float32 :=
  repeat (repeat (Float32.div (Float32.of_Z 1) (Float32.of_Z 2)) 8) 8.

(** A row of a disparity map, from the interior values, with the invalid
    marker on the two border columns. *)
Definition disparity_row (interior : list Z) : list (option Z) :=
  None :: map Some interior ++ [None].

(** An 8x8 disparity map with invalid border rows and the same six interior
    rows. *)
Definition disparity_grid (interior : list Z) : list (list (option Z)) :=
  repeat None 8 :: repeat (disparity_row interior) 6 ++ [repeat None 8].

(** *** A rectified pair of pinhole cameras, on rational numbers *)

(** A lens model without distortion: focal length and principal point. *)
Record pinhole : Type := { focal : Q; cu : Q; cv : Q }.

Definition point3 : Type := (Q * Q * Q)%type.

(** The second camera stands [baseline] to the side of the first, along the
    rows. *)
#[export] Instance rectified : Geometry pinhole Q point3 (Q * Q) := {|
  back_project := fun lm yx depth =>
    ((inject_Z (snd yx) - cu lm) / focal lm * depth,
     (inject_Z (fst yx) - cv lm) / focal lm * depth,
     depth);
  transform := fun baseline p =>
    let '(X, Y, Z) := p in (X + baseline, Y, Z);
  project := fun lm p =>
    let '(X, Y, Z) := p in
    (focal lm * X / Z + cu lm, focal lm * Y / Z + cv lm)
|}.

(** The sample of the nearest pixel. *)
#[export] Instance nearest : Sampler Z (Q * Q) := {|
  sample_at := fun im uv =>
    let x := Qfloor (fst uv + (1 # 2)) in
    let y := Qfloor (snd uv + (1 # 2)) in
    if ((0 <=? x) && (0 <=? y))%Z
    then grid_at im (Z.to_nat y) (Z.to_nat x)
    else None
|}.

(** The sum of absolute differences as a rational cost, and the mean of the
    scores of the secondary images. *)
#[export] Instance similarity_Q : Similarity Z Q :=
  {| score := fun a b => inject_Z (sad_Z a b);
     cost_ltb := fun a b => negb (Qle_bool b a) |}.

#[export] Instance mean : Aggregate Q :=
  {| combine_costs := fun l =>
       fold_left Qplus l 0 / inject_Z (Z.of_nat (length l)) |}.

(** Every entirely invalid grid is returned as absent. *)
#[export] Instance absent_when_invalid : Fallback point3 :=
  {| falls_back := fun _ => true |}.

(** A scene for plane sweeping: a 3x8 gradient seen by two cameras of focal
    length 1 that stand 2 apart; at depth 1 the second image is the first
    shifted by two pixels. *)
Definition unit_camera : pinhole := {| focal := 1; cu := 0; cv := 0 |}.
Definition reference_image : image Z :=
  repeat (map (fun x => (x + 2)%Z) (indices 8)) 3.
Definition secondary_image : image Z :=
  repeat (map (fun x => x) (indices 8)) 3.

(** Plane sweeping over that scene with one secondary image, steps of 1/2
    and a block of one pixel. *)
Definition scene_sweep (depth_range : Q * Q)
    : precondition_error + option (list (list (option point3))) :=
  PlaneSweeping.plane_sweeping (similarity := similarity_Q)
    (aggregate := mean) (geometry := rectified) (sampler := nearest)
    (fallback := absent_when_invalid)
    reference_image unit_camera [secondary_image] [unit_camera] [2]
    depth_range (1 # 2) (1, 1)%Z.

End Scenario.

(* ================================================================= *)
(** ** Notebook 04: the arrays between the functions *)

Module Arrays.

Import Projection.

(** [n] consecutive rows of [w] elements each, cut from a flat sequence. *)
Fixpoint chunks {A : Type} (n w : nat) (l : list A) : list (list A) :=
  match n with
  | O => []
  | S n' => firstn w l :: chunks n' w (skipn w l)
  end.

(** [a.reshape(-1, k)] for [a] of shape (H, W, k): the rows one after
    another. *)
Definition flatten_grid {A : Type} (a : list (list A)) : list A := concat a.

(** [a.reshape(h, w, k)] for [a] of shape (N, k): NumPy raises a
    [ValueError], here [None], unless [N = h * w]. *)
Definition reshape_grid {A : Type} (h w : nat) (a : list A)
    : option (list (list A)) :=
  if (length a =? h * w)%nat then Some (chunks h w a) else None.

(** [a.reshape(-1, r, c)] for a two-dimensional [a]: the elements in row
    order, regrouped into blocks of [r] rows of [c] elements; a [ValueError]
    unless their number is a multiple of [r * c]. *)
Definition reshape_blocks {A : Type} (r c : nat) (a : list (list A))
    : option (list (list (list A))) :=
  let flat := concat a in
  let size := length flat in
  if (size mod (r * c) =? 0)%nat
  then Some (chunks (size / (r * c)) r (chunks (size / c) c flat))
  else None.

(** [a[:, :k]] *)
Definition take_columns {A : Type} (k : nat) (a : list (list A))
    : list (list A) :=
  map (firstn k) a.

(** [a[:, 0, :]] for [a] of shape (N, M, k): an [IndexError], here [None],
    when the middle axis is empty. *)
Definition first_of_axis1 {A : Type} (a : list (list A)) : option (list A) :=
  all_some (map (@hd_error A) a).

(** [x.astype(np.float32)] for a binary64 [x]: the value rounded to the
    nearest binary32, ties to even. *)
Definition astype_float32 (x : spec_float) : Float32.float32 :=
  match x with
  | S754_finite s m e => binary_round Float32.prec Float32.emax s m e
  | _ => x
  end.

(** The Python float of an integer: a binary64. *)
Definition float64_of_Z (z : Z) : spec_float :=
  binary_normalize 53 1024 z 0 false.

(** [np.meshgrid(xs, ys)] with the default indexing: two arrays of
    [len(ys)] rows and [len(xs)] columns, the first with [xs] in every row,
    the second with [ys] down every column. *)
Definition meshgrid {A : Type} (xs ys : list A)
    : list (list A) * list (list A) :=
  (map (fun _ => xs) ys, map (fun y => map (fun _ => y) xs) ys).

(** [np.zeros((h, w))] *)
Definition zeros (h w : nat) : list (list spec_float) :=
  repeat (repeat (S754_zero false) w) h.

(** Two arrays have one shape. *)
Definition shape_eqb {A : Type} (a b : list (list A)) : bool :=
  if list_eq_dec Nat.eq_dec (map (@length A) a) (map (@length A) b)
  then true else false.

(** [np.stack([a, b, c], axis=-1, dtype=np.float32)] for three
    two-dimensional arrays: a [ValueError] unless all have one shape. *)
Definition stack_last (a b c : list (list spec_float))
    : option (list (list (vec3 Float32.float32))) :=
  if shape_eqb a c && shape_eqb b c
  then Some (map (fun rows =>
                    map (fun xyz => mk3 (astype_float32 (fst (fst xyz)))
                                        (astype_float32 (snd (fst xyz)))
                                        (astype_float32 (snd xyz)))
                        (combine (combine (fst (fst rows)) (snd (fst rows)))
                                 (snd rows)))
                 (combine (combine a b) c))
  else None.

End Arrays.

Module Notebook.

Import Projection Arrays.

(** The grid of the first cell: [np.stack([*np.meshgrid(xs, ys),
    np.zeros((10, 10))], axis=-1, dtype=np.float32)], where [xs] and [ys]
    are what [np.linspace] returns (NumPy's; the two lists are
    parameters). *)
Definition grid_points (xs ys : list spec_float)
    : option (list (list (vec3 Float32.float32))) :=
  stack_last (fst (meshgrid xs ys)) (snd (meshgrid xs ys)) (zeros 10 10).

(** [points + t[None, None, :]] *)
Definition add_grid (points : list (list (vec3 Float32.float32)))
    (t : vec3 Float32.float32) : list (list (vec3 Float32.float32)) :=
  map (fun row => add_row row t) points.

(** [points_shifted = points + np.array([0, 0, 100],
    dtype=np.float32)[None, None, :]] *)
Definition points_shifted (points : list (list (vec3 Float32.float32)))
    : list (list (vec3 Float32.float32)) :=
  add_grid points
    (mk3 (Float32.of_Z 0) (Float32.of_Z 0) (Float32.of_Z 100)).

(** The pixel of one point in [project_points_simple]. *)
Definition project_point {F L : Type} `{Arith F} `{LensOps F L}
    (lens_model : L) (p : vec3 F) : vec2 F :=
  denormalize_pixel lens_model
    (distort_pixel lens_model (mk2 (fdiv (vx p) (vz p)) (fdiv (vy p) (vz p)))).

Section Cells.

Context {L : Type} {ops : LensOps Float32.float32 L}.
Variable Rodrigues : vec3 Float32.float32 -> mat3 Float32.float32.

(** [project_points_simple(points=points_shifted.reshape(-1, 3),
    lens_model=lens_model).reshape(10, 10, 2)] *)
Definition projector_points
    (points_shifted : list (list (vec3 Float32.float32))) (lens_model : L)
    : option (list (list (vec2 Float32.float32))) :=
  reshape_grid 10 10
    (project_points_simple (flatten_grid points_shifted) lens_model).

(** The pixels that [plot_with_sliders] plots: the six slider values are
    Python floats, cast by [np.array(..., dtype=np.float32)]. *)
Definition plot_with_sliders_pixels
    (points : list (list (vec3 Float32.float32))) (lens_model : L)
    (rx ry rz tx ty tz : spec_float)
    : option (list (list (vec2 Float32.float32))) :=
  let rvec :=
    mk3 (astype_float32 rx) (astype_float32 ry) (astype_float32 rz) in
  let tvec :=
    mk3 (astype_float32 tx) (astype_float32 ty) (astype_float32 tz) in
  reshape_grid 10 10
    (project_points Rodrigues (flatten_grid points) rvec tvec lens_model).

(** [detected_pixels = project_points(points=points.reshape(-1, 3),
    rvec=rvec_to_find, tvec=tvec_to_find,
    lens_model=lens_model).reshape(10, 10, 2)] *)
Definition detected_pixels
    (points : list (list (vec3 Float32.float32))) (lens_model : L)
    (rvec_to_find tvec_to_find : vec3 Float32.float32)
    : option (list (list (vec2 Float32.float32))) :=
  reshape_grid 10 10
    (project_points Rodrigues (flatten_grid points) rvec_to_find
       tvec_to_find lens_model).

End Cells.

Section WithJacobian.

Context {F G L : Type}.

(** [x.astype(np.float32)] on the element type of OpenCV's results. *)
Variable astype : G -> F.

(** [cv2.projectPoints] is OpenCV's; it is a parameter here, given the lens
    model for the camera matrix and the distortion vector read from it.  It
    returns the image points, of shape (N, 1, 2), and the Jacobian, with two
    rows per point and the six columns of the derivatives by [rvec] and
    [tvec] first. *)
Variable projectPoints :
  list (vec3 F) -> vec3 F -> vec3 F -> L ->
  list (list (vec2 G)) * list (list G).

(** The result is [None] where the notebook's function raises. *)
Definition project_points_with_jacobian (points : list (vec3 F))
    (rvec tvec : vec3 F) (lens_model : L)
    : option (list (vec2 F) * list (list (list F))) :=
  let projected_points := fst (projectPoints points rvec tvec lens_model) in
  let jacobian := snd (projectPoints points rvec tvec lens_model) in
  match
    first_of_axis1
      (map (map (fun q => mk2 (astype (px q)) (astype (py q))))
           projected_points),
    reshape_blocks 2 6 (take_columns 6 (map (map astype) jacobian))
  with
  | Some pixels, Some blocks => Some (pixels, blocks)
  | _, _ => None
  end.

End WithJacobian.

(** [np.isclose(a, b, rtol, atol)] on one element, as NumPy documents it:
    [|a - b| <= atol + rtol * |b|] for a finite [b], or [a == b]; a NaN is
    close to nothing. *)
Definition isclose (rtol atol a b : Float32.float32) : bool :=
  (SFleb (Float32.abs (Float32.sub a b))
         (Float32.add atol (Float32.mul rtol (Float32.abs b)))
   && Float32.is_finite b)
  || SFeqb a b.

(** [np.allclose(a, b, atol=atol)] for two arrays of shape (3,), with the
    default [rtol = 1e-5]. *)
Definition allclose (atol : Float32.float32) (a b : vec3 Float32.float32)
    : bool :=
  let rtol := Float32.div (Float32.of_Z 1) (Float32.of_Z 100000) in
  isclose rtol atol (vx a) (vx b)
  && isclose rtol atol (vy a) (vy b)
  && isclose rtol atol (vz a) (vz b).

(** The test of the last cell: [np.allclose(rvec_found, rvec_to_find,
    atol=1e-3) and np.allclose(tvec_found, tvec_to_find, atol=1e-3)], with
    [rvec_found] and [tvec_found] from the call of [solve_pnp]. *)
Definition all_close {L : Type} {ops : LensOps Float32.float32 L}
    (points : list (vec3 Float32.float32))
    (detected_pixels : list (vec2 Float32.float32)) (lens_model : L)
    (rvec_to_find tvec_to_find : vec3 Float32.float32) : bool :=
  let atol := Float32.div (Float32.of_Z 1) (Float32.of_Z 1000) in
  let found := pnp_cell points detected_pixels lens_model in
  allclose atol (fst found) rvec_to_find
  && allclose atol (snd found) tvec_to_find.

(** The word the last [print] puts in "The solution is ...!". *)
Inductive verdict : Type := correct | incorrect.

Definition solution (all_close : bool) : verdict :=
  if all_close then correct else incorrect.

End Notebook.

(* ================================================================= *)
(** * Properties *)

(* ================================================================= *)
(** ** Binary32: what an infinite or NaN operand does *)

Module Float32Facts.

Import Float32.

Lemma add_nonfinite_l (a b : float32) : nonfinite a -> nonfinite (add a b).
Proof.
  unfold nonfinite, add.
  destruct a as [sa|sa| |sa ma ea]; try discriminate; intros _.
  - destruct b as [sb|sb| |sb mb eb]; try reflexivity.
    destruct sa, sb; reflexivity.
  - reflexivity.
Qed.

Lemma add_nonfinite_r (a b : float32) : nonfinite b -> nonfinite (add a b).
Proof.
  unfold nonfinite, add.
  destruct b as [sb|sb| |sb mb eb]; try discriminate; intros _.
  - destruct a as [sa|sa| |sa ma ea]; try reflexivity.
    destruct sa, sb; reflexivity.
  - destruct a; reflexivity.
Qed.

Lemma mul_nonfinite_l (a b : float32) : nonfinite a -> nonfinite (mul a b).
Proof.
  unfold nonfinite, mul.
  destruct a as [sa|sa| |sa ma ea]; try discriminate; intros _.
  - destruct b; reflexivity.
  - reflexivity.
Qed.

Lemma mul_nonfinite_r (a b : float32) : nonfinite b -> nonfinite (mul a b).
Proof.
  unfold nonfinite, mul.
  destruct b as [sb|sb| |sb mb eb]; try discriminate; intros _;
    destruct a; reflexivity.
Qed.

(** Division by a zero of either sign: infinite or NaN, whatever the
    numerator. *)
Lemma div_zero_nonfinite (a z : float32) :
  is_zero z = true -> nonfinite (div a z).
Proof.
  unfold nonfinite, div.
  destruct z as [sz|sz| |sz mz ez]; try discriminate; intros _.
  destruct a; reflexivity.
Qed.

Lemma mul_nan_r (a : float32) : mul a nan = nan.
Proof. destruct a; reflexivity. Qed.

(** Multiplication in binary32 is commutative. *)
Lemma mul_comm (a b : float32) : mul a b = mul b a.
Proof.
  unfold mul.
  destruct a as [sa|sa| |sa ma ea], b as [sb|sb| |sb mb eb]; simpl;
    try reflexivity; try (rewrite xorb_comm; reflexivity).
  rewrite (xorb_comm sa sb), (Pos.mul_comm ma mb), (Z.add_comm ea eb).
  reflexivity.
Qed.

Lemma digits_shift (m : positive) :
  Z.pos (digits2_pos (Pos.mul 8388608 m)) = (Z.pos (digits2_pos m) + 23)%Z.
Proof. cbn [Pos.mul digits2_pos]. lia. Qed.

(** Multiplication by one is exact on canonical numbers: the product of the
    mantissas is shifted back by the 23 bits of the mantissa of one. *)
Lemma mul_one_r (x : float32) :
  valid_binary prec emax x = true -> mul x (of_Z 1) = x.
Proof.
  destruct x as [s|s| |s m e]; simpl; intros Hv.
  - rewrite xorb_false_r. reflexivity.
  - rewrite xorb_false_r. reflexivity.
  - reflexivity.
  - unfold SpecFloat.bounded, canonical_mantissa in Hv.
    apply andb_true_iff in Hv. destruct Hv as [Hc Hb].
    apply Z.eqb_eq in Hc.
    change (mul (S754_finite s m e) (of_Z 1))
      with (binary_round_aux prec emax (xorb s false)
              (Z.pos (m * 8388608)) (e + -23) loc_Exact).
    rewrite xorb_false_r, Pos.mul_comm.
    unfold binary_round_aux, shr_fexp.
    unfold Zdigits2. rewrite digits_shift.
    change (fexp prec emax 1) with (-23)%Z.
    replace (Z.pos (digits2_pos m) + 23 + (e + -23))%Z
      with (Z.pos (digits2_pos m) + e)%Z by lia.
    rewrite Hc.
    replace (e - (e + -23))%Z with 23%Z by lia.
    cbn -[fexp Z.leb Z.sub Z.add].
    replace (e + -23 + 23)%Z with e by lia.
    rewrite Hc, Z.sub_diag. cbn -[Z.leb Z.sub Z.add].
    rewrite Hb. reflexivity.
Qed.

Lemma plain_valid (x : float32) : plain x = true -> valid_binary prec emax x = true.
Proof. destruct x; simpl; intros Hp; congruence. Qed.

(** The product of a finite number and zero is a zero. *)
Lemma mul_zero_r (x : float32) :
  is_finite x = true -> exists s, mul x (S754_zero false) = S754_zero s.
Proof. destruct x; simpl; intros Hf; try discriminate; eexists; reflexivity. Qed.

(** Adding a zero of either sign to a plain number, on either side, gives
    the number back. *)
Lemma add_zero_r (x : float32) (s : bool) :
  plain x = true -> add x (S754_zero s) = x.
Proof.
  destruct x as [sx|sx| |sx m e]; simpl; intros Hp; try discriminate.
  - destruct sx; [discriminate|]. destruct s; reflexivity.
  - reflexivity.
Qed.

Lemma add_zero_l (x : float32) (s : bool) :
  plain x = true -> add (S754_zero s) x = x.
Proof.
  destruct x as [sx|sx| |sx m e]; simpl; intros Hp; try discriminate.
  - destruct sx; [discriminate|]. destruct s; reflexivity.
  - reflexivity.
Qed.

Lemma add_zeros (s s' : bool) :
  exists s'', add (S754_zero s) (S754_zero s') = S754_zero s''.
Proof. destruct s, s'; eexists; reflexivity. Qed.

Lemma plain_finite (x : float32) : plain x = true -> is_finite x = true.
Proof. destruct x; simpl; intros Hp; congruence. Qed.

(** *** The order *)

Ltac split_compare :=
  repeat match goal with
  | H : context [(?x ?= ?y)%Z] |- _ => destruct (Z.compare_spec x y)
  | |- context [(?x ?= ?y)%Z] => destruct (Z.compare_spec x y)
  | H : context [(?x ?= ?y)%positive] |- _ => destruct (Pos.compare_spec x y)
  | |- context [(?x ?= ?y)%positive] => destruct (Pos.compare_spec x y)
  end.

Ltac float_order :=
  unfold ltb, SFltb, SFcompare;
  repeat match goal with
  | x : float32 |- _ => destruct x as [[|]|[|]| |[|] ? ?]
  end;
  simpl; intros; try discriminate; try reflexivity;
  fold Pos.compare in *; split_compare; simpl in *;
  first [discriminate | reflexivity | exfalso; subst; lia].

Lemma ltb_irrefl (a : float32) : is_nan a = false -> ltb a a = false.
Proof. float_order. Qed.

Lemma ltb_trans (a b c : float32) :
  is_nan a = false -> is_nan b = false -> is_nan c = false ->
  ltb a b = true -> ltb b c = true -> ltb a c = true.
Proof. float_order. Qed.

Lemma ltb_below (a b c : float32) :
  is_nan a = false -> is_nan b = false -> is_nan c = false ->
  ltb a b = true -> ltb c b = false -> ltb a c = true.
Proof. float_order. Qed.

End Float32Facts.

Create HintDb nonfinite.
#[export] Hint Resolve Float32Facts.add_nonfinite_l Float32Facts.add_nonfinite_r
  Float32Facts.mul_nonfinite_l Float32Facts.mul_nonfinite_r : nonfinite.

(* ================================================================= *)
(** ** Notebook 04 *)

Module ProjectionFacts.

Import Projection.

(** *** The list algebra of [project_points_simple] *)

Section Shape.

Context {F : Type} `{Arith F}.
Context {L : Type} `{LensOps F L}.

(** [project_points_simple] is a map over the points: the one-row array
    it builds and the [[0]] that takes the row back cancel. *)
Lemma project_points_simple_map (points : list (vec3 F)) (lm : L) :
  project_points_simple points lm =
  map (fun p => denormalize_pixel lm
                  (distort_pixel lm (mk2 (fdiv (vx p) (vz p))
                                         (fdiv (vy p) (vz p)))))
      points.
Proof.
  unfold project_points_simple, denormalize_pixels, distort_pixels,
    divide_by_z.
  simpl. rewrite !map_map. reflexivity.
Qed.

Lemma project_points_simple_length (points : list (vec3 F)) (lm : L) :
  length (project_points_simple points lm) = length points.
Proof. rewrite project_points_simple_map. apply length_map. Qed.

End Shape.

(** *** [project_points] against the rigid transform *)

Section Transform.

Context {F : Type} `{Arith F}.
Context {L : Type} `{LensOps F L}.
Hypothesis mul_comm : forall a b : F, fmul a b = fmul b a.

Lemma row_matmul_transpose (R : mat3 F) (t p : vec3 F) :
  mk3 (fadd (vx (row_matmul p (transpose R))) (vx t))
      (fadd (vy (row_matmul p (transpose R))) (vy t))
      (fadd (vz (row_matmul p (transpose R))) (vz t))
  = rigid_transform R t p.
Proof.
  unfold rigid_transform, row_matmul, transpose; simpl.
  rewrite !(mul_comm (vx p)), !(mul_comm (vy p)), !(mul_comm (vz p)).
  reflexivity.
Qed.

Lemma transformed_points_rigid (R : mat3 F) (t : vec3 F)
    (points : list (vec3 F)) :
  add_row (matmul points (transpose R)) t = map (rigid_transform R t) points.
Proof.
  unfold add_row, matmul. rewrite map_map.
  apply map_ext. intros p. apply row_matmul_transpose.
Qed.

Lemma project_points_transformed (Rodrigues : vec3 F -> mat3 F)
    (points : list (vec3 F)) (rvec tvec : vec3 F) (lens_model : L) :
  project_points Rodrigues points rvec tvec lens_model =
    project_points_simple
      (map (rigid_transform (Rodrigues rvec) tvec) points) lens_model.
Proof.
  unfold project_points. rewrite transformed_points_rigid. reflexivity.
Qed.

End Transform.

(** In binary32 the identity pose leaves a plain point as it is: the
    products with one are exact, the products with zero are zeros, and
    adding a zero changes nothing. *)
Lemma rigid_transform_identity_float32 (p : vec3 Float32.float32) :
  plain_point p = true -> rigid_transform identity zero_vec p = p.
Proof.
  destruct p as [x y z]. unfold plain_point; cbn [vx vy vz].
  rewrite !andb_true_iff. intros [[Hx Hy] Hz].
  unfold rigid_transform, identity, zero_vec.
  cbn [vx vy vz fmul fadd fone fzero float32_arith].
  rewrite !(Float32Facts.mul_comm (Float32.of_Z 1)),
    !(Float32Facts.mul_comm (S754_zero false)).
  rewrite !Float32Facts.mul_one_r by (apply Float32Facts.plain_valid; assumption).
  destruct (Float32Facts.mul_zero_r x (Float32Facts.plain_finite x Hx)) as [sx ->].
  destruct (Float32Facts.mul_zero_r y (Float32Facts.plain_finite y Hy)) as [sy ->].
  destruct (Float32Facts.mul_zero_r z (Float32Facts.plain_finite z Hz)) as [sz ->].
  destruct (Float32Facts.add_zeros sx sy) as [sxy ->].
  rewrite !(fun s => Float32Facts.add_zero_r x s Hx).
  rewrite (fun s => Float32Facts.add_zero_l y s Hy),
    !(fun s => Float32Facts.add_zero_r y s Hy).
  rewrite (fun s => Float32Facts.add_zero_l z s Hz),
    !(fun s => Float32Facts.add_zero_r z s Hz).
  reflexivity.
Qed.

(** So in binary32, with a [Rodrigues] that gives the identity at the zero
    vector, [project_points] at [rvec = tvec = 0] and [project_points_simple]
    give the same pixels, bit for bit, on plain points. *)
Lemma project_points_identity_float32 (L : Type)
    (ops : LensOps Float32.float32 L)
    (Rodrigues : vec3 Float32.float32 -> mat3 Float32.float32)
    (points : list (vec3 Float32.float32)) (lens_model : L) :
  Rodrigues zero_vec = identity ->
  forallb plain_point points = true ->
  project_points Rodrigues points zero_vec zero_vec lens_model =
    project_points_simple points lens_model.
Proof.
  intros HR Hplain.
  rewrite (@project_points_transformed _ float32_arith _ _ Float32Facts.mul_comm), HR.
  f_equal. rewrite <- (map_id points) at 2.
  apply map_ext_in. intros p Hp.
  apply rigid_transform_identity_float32.
  rewrite forallb_forall in Hplain. apply Hplain, Hp.
Qed.

(** The same at the point (1, 2, 4) with the notebook's lens model. *)
Lemma project_points_identity_float32_witness :
  let points :=
    [mk3 (Float32.of_Z 1) (Float32.of_Z 2) (Float32.of_Z 4)] in
  let lens_model := notebook_lens_model Float32.of_Z in
  project_points (fun _ => identity) points zero_vec zero_vec lens_model =
    project_points_simple points lens_model.
Proof.
  intros points lens_model.
  apply project_points_identity_float32; reflexivity.
Defined.

(** In binary32 the identity rotation followed by a translation adds the
    translation to a plain point, coordinate by coordinate. *)
Lemma rigid_transform_translation_float32 (t p : vec3 Float32.float32) :
  plain_point p = true ->
  rigid_transform identity t p
  = mk3 (Float32.add (vx p) (vx t)) (Float32.add (vy p) (vy t))
        (Float32.add (vz p) (vz t)).
Proof.
  destruct p as [x y z]. unfold plain_point; cbn [vx vy vz].
  rewrite !andb_true_iff. intros [[Hx Hy] Hz].
  unfold rigid_transform, identity.
  cbn [vx vy vz fmul fadd fone fzero float32_arith].
  rewrite !(Float32Facts.mul_comm (Float32.of_Z 1)),
    !(Float32Facts.mul_comm (S754_zero false)).
  rewrite !Float32Facts.mul_one_r
    by (apply Float32Facts.plain_valid; assumption).
  destruct (Float32Facts.mul_zero_r x (Float32Facts.plain_finite x Hx))
    as [sx ->].
  destruct (Float32Facts.mul_zero_r y (Float32Facts.plain_finite y Hy))
    as [sy ->].
  destruct (Float32Facts.mul_zero_r z (Float32Facts.plain_finite z Hz))
    as [sz ->].
  destruct (Float32Facts.add_zeros sx sy) as [sxy ->].
  rewrite !(fun s => Float32Facts.add_zero_r x s Hx).
  rewrite (fun s => Float32Facts.add_zero_l y s Hy),
    (fun s => Float32Facts.add_zero_r y s Hy).
  rewrite (fun s => Float32Facts.add_zero_l z s Hz).
  reflexivity.
Qed.

Lemma translated_points_float32
    (Rodrigues : vec3 Float32.float32 -> mat3 Float32.float32)
    (points : list (vec3 Float32.float32)) (tvec : vec3 Float32.float32) :
  Rodrigues zero_vec = identity ->
  forallb plain_point points = true ->
  map (rigid_transform (Rodrigues zero_vec) tvec) points = add_row points tvec.
Proof.
  intros HR Hplain. rewrite HR. unfold add_row.
  apply map_ext_in. intros p Hp.
  apply rigid_transform_translation_float32.
  rewrite forallb_forall in Hplain. apply Hplain, Hp.
Qed.




(** *** [solve_pnp] *)

Lemma scale_nan (v : vec3 Float32.float32) : scale v Float32.nan = nan_vec.
Proof.
  unfold scale, nan_vec; simpl.
  rewrite !Float32Facts.mul_nan_r. reflexivity.
Qed.

(** C8.  [solve_pnp] returns [None] whatever it is given, and the cell that
    calls it then takes NaN vectors for the rotation and the translation. *)
Theorem solve_pnp_returns_None :
  (forall (F L : Type) (arith : Arith F) (ops : LensOps F L)
          (points : list (vec3 F)) (pixels : list (vec2 F)) (lens_model : L)
          (rvec tvec : vec3 F) (epsilon : F) (max_iterations : Z),
      solve_pnp points pixels lens_model rvec tvec epsilon max_iterations
      = None)
  /\ (forall (L : Type) (ops : LensOps Float32.float32 L)
             (points : list (vec3 Float32.float32))
             (detected_pixels : list (vec2 Float32.float32)) (lens_model : L),
         pnp_cell points detected_pixels lens_model = (nan_vec, nan_vec)).
Proof.
  split.
  - reflexivity.
  - intros. unfold pnp_cell, solve_pnp, found_or_nan.
    rewrite !scale_nan. reflexivity.
Qed.

(** *** Division by a zero depth *)

(** The distortion and the camera matrix are sums of products of the
    coordinates: whatever the coefficients, they keep a coordinate that is
    infinite or NaN infinite or NaN. *)
Lemma brown_conrady_distort_propagates (lm : LensModel Float32.float32) :
  propagates_nonfinite (brown_conrady_distort lm).
Proof.
  intros [x y] Hx Hy; simpl in *.
  unfold brown_conrady_distort; simpl. split.
  - apply Float32Facts.add_nonfinite_l, Float32Facts.add_nonfinite_l,
      Float32Facts.mul_nonfinite_l. exact Hx.
  - apply Float32Facts.add_nonfinite_l, Float32Facts.add_nonfinite_l,
      Float32Facts.mul_nonfinite_l. exact Hy.
Qed.

Lemma brown_conrady_denormalize_propagates (lm : LensModel Float32.float32) :
  propagates_nonfinite (brown_conrady_denormalize lm).
Proof.
  intros [x y] Hx Hy; simpl in *.
  unfold brown_conrady_denormalize; simpl.
  split; apply Float32Facts.add_nonfinite_l, Float32Facts.mul_nonfinite_r;
    assumption.
Qed.

(** C10.  [project_points_simple] divides by the Z coordinate without a
    guard: at a point whose Z is zero (of either sign) the result still has
    a pixel for every point, and the pixel of that point has infinite or NaN
    coordinates, for every lens model whose distortion and denormalization
    let such coordinates through. *)
Theorem project_points_simple_zero_depth
    (L : Type) (ops : LensOps Float32.float32 L) (lens_model : L)
    (points : list (vec3 Float32.float32)) (i : nat)
    (p : vec3 Float32.float32) :
  propagates_nonfinite (distort_pixel lens_model) ->
  propagates_nonfinite (denormalize_pixel lens_model) ->
  nth_error points i = Some p ->
  Float32.is_zero (vz p) = true ->
  length (project_points_simple points lens_model) = length points
  /\ exists q,
       nth_error (project_points_simple points lens_model) i = Some q
       /\ Float32.nonfinite (px q) /\ Float32.nonfinite (py q).
Proof.
  intros Hdist Hden Hp Hz. split.
  - apply project_points_simple_length.
  - rewrite project_points_simple_map.
    eexists. split.
    + apply map_nth_error. exact Hp.
    + apply Hden; apply Hdist; simpl;
        apply Float32Facts.div_zero_nonfinite; exact Hz.
Qed.

(** The first point of the notebook's grid, [(-20, -20, 0)], through the
    notebook's lens model. *)
Lemma project_points_simple_zero_depth_witness :
  let lens_model := notebook_lens_model Float32.of_Z in
  let points := [mk3 (Float32.of_Z (-20)) (Float32.of_Z (-20)) (Float32.of_Z 0)] in
  length (project_points_simple points lens_model) = length points
  /\ exists q,
       nth_error (project_points_simple points lens_model) 0 = Some q
       /\ Float32.nonfinite (px q) /\ Float32.nonfinite (py q).
Proof.
  intros lens_model points.
  apply (@project_points_simple_zero_depth _ _ lens_model points 0%nat
           (mk3 (Float32.of_Z (-20)) (Float32.of_Z (-20)) (Float32.of_Z 0))).
  - apply brown_conrady_distort_propagates.
  - apply brown_conrady_denormalize_propagates.
  - reflexivity.
  - reflexivity.
Defined.

(** What that point projects to: both coordinates are NaN. *)
Example project_points_simple_grid_corner :
  project_points_simple
    [mk3 (Float32.of_Z (-20)) (Float32.of_Z (-20)) (Float32.of_Z 0)]
    (notebook_lens_model Float32.of_Z)
  = [mk2 Float32.nan Float32.nan].
Proof. vm_compute. reflexivity. Qed.

End ProjectionFacts.

(* ================================================================= *)
(** ** The search for the best candidate *)

Module SearchFacts.

Import Search.

Section Argmin.

Context {K cost : Type}.
Variable ltb : cost -> cost -> bool.
Variable eval : K -> option cost.

(** The best candidate, when there is one, is one of the candidates and
    carries its own score. *)
Lemma argmin_from_In (candidates : list K) :
  forall best k c,
    argmin_from ltb eval best candidates = Some (k, c) ->
    best = Some (k, c) \/ (In k candidates /\ eval k = Some c).
Proof.
  induction candidates as [|k0 l IH]; intros best k c Hr; simpl in Hr.
  - left; exact Hr.
  - apply IH in Hr. destruct Hr as [Hb | [Hin He]].
    + unfold better in Hb.
      destruct (eval k0) as [c0|] eqn:E0.
      * destruct best as [[k1 c1]|].
        -- destruct (ltb c0 c1).
           ++ inversion Hb; subst. right. split; [left; reflexivity | exact E0].
           ++ left; exact Hb.
        -- inversion Hb; subst. right. split; [left; reflexivity | exact E0].
      * left; exact Hb.
    + right. split; [right; exact Hin | exact He].
Qed.

(** The search over one candidate: the candidate, when it has a score. *)
Lemma argmin_singleton (k : K) :
  argmin ltb eval [k] = option_map (fun c => (k, c)) (eval k).
Proof.
  unfold argmin, argmin_from, better; simpl.
  destruct (eval k); reflexivity.
Qed.

Variable ordered : cost -> Prop.
Context `{!StrictWeakOrder ordered ltb}.

Lemma better_best_of (seen : list K) (best : option (K * cost)) (k : K) :
  (forall k' c, In k' (seen ++ [k]) -> eval k' = Some c -> ordered c) ->
  best_of ltb eval seen best ->
  best_of ltb eval (seen ++ [k]) (better ltb eval best k).
Proof.
  intros Hord Hb. unfold better.
  destruct (eval k) as [c|] eqn:Ek.
  - assert (Oc : ordered c).
    { apply (Hord k); [apply in_or_app; right; left; reflexivity | exact Ek]. }
    destruct best as [[k0 c0]|]; simpl in Hb.
    + destruct Hb as [E0 (before & after & -> & Hbefore & Hafter)].
      assert (Oseen : forall k' c', In k' (before ++ k0 :: after) ->
                        eval k' = Some c' -> ordered c').
      { intros k' c' Hin. apply Hord, in_or_app. left. exact Hin. }
      assert (O0 : ordered c0).
      { apply (Oseen k0); [apply in_or_app; right; left; reflexivity|exact E0]. }
      destruct (ltb c c0) eqn:Hlt; simpl.
      * split; [exact Ek|].
        exists (before ++ k0 :: after), []. split; [reflexivity|]. split.
        -- intros k' c' Hin He.
           pose proof (Oseen _ _ Hin He) as O'.
           apply in_app_or in Hin. destruct Hin as [Hin | [<- | Hin]].
           ++ apply (ltb_trans c c0 c' Oc O0 O' Hlt). eapply Hbefore; eauto.
           ++ rewrite E0 in He. inversion He; subst. exact Hlt.
           ++ apply (ltb_below c c0 c' Oc O0 O' Hlt). eapply Hafter; eauto.
        -- intros k' c' [].
      * split; [exact E0|].
        exists before, (after ++ [k]). split.
        -- rewrite <- app_assoc. reflexivity.
        -- split; [exact Hbefore|].
           intros k' c' Hin He.
           apply in_app_or in Hin. destruct Hin as [Hin | [<- | []]].
           ++ eapply Hafter; eauto.
           ++ rewrite Ek in He. inversion He; subst. exact Hlt.
    + simpl. split; [exact Ek|].
      exists seen, []. split; [reflexivity|]. split.
      * intros k' c' Hin He. rewrite (Hb k' Hin) in He. discriminate.
      * intros k' c' [].
  - destruct best as [[k0 c0]|]; simpl in *.
    + destruct Hb as [E0 (before & after & -> & Hbefore & Hafter)].
      split; [exact E0|].
      exists before, (after ++ [k]). split.
      * rewrite <- app_assoc. reflexivity.
      * split; [exact Hbefore|].
        intros k' c' Hin He.
        apply in_app_or in Hin. destruct Hin as [Hin | [<- | []]].
        -- eapply Hafter; eauto.
        -- rewrite Ek in He. discriminate.
    + intros k' Hin. apply in_app_or in Hin.
      destruct Hin as [Hin | [<- | []]]; [apply Hb, Hin | exact Ek].
Qed.

Lemma argmin_from_best_of (candidates : list K) :
  forall seen best,
    (forall k c, In k (seen ++ candidates) -> eval k = Some c -> ordered c) ->
    best_of ltb eval seen best ->
    best_of ltb eval (seen ++ candidates) (argmin_from ltb eval best candidates).
Proof.
  induction candidates as [|k l IH]; intros seen best Hord Hb; simpl.
  - rewrite app_nil_r. exact Hb.
  - replace (seen ++ k :: l) with ((seen ++ [k]) ++ l) in *
      by (rewrite <- app_assoc; reflexivity).
    apply IH; [exact Hord|]. apply better_best_of; [|exact Hb].
    intros k' c Hin. apply Hord, in_or_app. left. exact Hin.
Qed.

(** The search keeps the first of the candidates of least score, when the
    scores of the candidates can be compared. *)
Lemma argmin_best_of (candidates : list K) :
  (forall k c, In k candidates -> eval k = Some c -> ordered c) ->
  best_of ltb eval candidates (argmin ltb eval candidates).
Proof.
  intros Hord.
  apply (argmin_from_best_of candidates [] None); [exact Hord|]. intros k [].
Qed.

End Argmin.

End SearchFacts.

(* ================================================================= *)
(** ** Grids *)

Module GridFacts.

Import Search.

Lemma nth_error_seq (n : nat) : forall a i v,
  nth_error (seq a n) i = Some v -> v = (a + i)%nat /\ (i < n)%nat.
Proof.
  induction n as [|n IH]; intros a i v Hv; simpl in Hv.
  - destruct i; discriminate.
  - destruct i as [|i]; simpl in Hv.
    + inversion Hv; subst. lia.
    + apply IH in Hv. lia.
Qed.

Lemma nth_error_indices (n i : nat) (z : Z) :
  nth_error (indices n) i = Some z -> z = Z.of_nat i /\ (i < n)%nat.
Proof.
  unfold indices. rewrite nth_error_map.
  destruct (nth_error (seq 0 n) i) as [v|] eqn:E; simpl; [|discriminate].
  intros Hz. inversion Hz; subst. apply nth_error_seq in E.
  destruct E as [-> Hlt]. split; [reflexivity | exact Hlt].
Qed.

(** The element at [(y, x)] of a grid computed from the indices. *)
Lemma grid_at_indices {A : Type} (f : Z -> Z -> A) (h w y x : nat) (a : A) :
  grid_at (map (fun r => map (fun c => f r c) (indices w)) (indices h)) y x
    = Some a ->
  a = f (Z.of_nat y) (Z.of_nat x) /\ (y < h)%nat /\ (x < w)%nat.
Proof.
  unfold grid_at. rewrite nth_error_map.
  destruct (nth_error (indices h) y) as [r|] eqn:Er; simpl; [|discriminate].
  rewrite nth_error_map.
  destruct (nth_error (indices w) x) as [c|] eqn:Ec; simpl; [|discriminate].
  intros Ha. inversion Ha; subst.
  apply nth_error_indices in Er, Ec.
  destruct Er as [-> Hy], Ec as [-> Hx]. auto.
Qed.

Lemma nth_error_indices_lt (n i : nat) :
  (i < n)%nat -> nth_error (indices n) i = Some (Z.of_nat i).
Proof.
  intros Hi. unfold indices. rewrite nth_error_map.
  destruct (nth_error (seq 0 n) i) as [v|] eqn:E.
  - apply nth_error_seq in E. destruct E as [-> _]. reflexivity.
  - apply nth_error_None in E. rewrite length_seq in E. lia.
Qed.

Lemma grid_at_indices_lt {A : Type} (f : Z -> Z -> A) (h w y x : nat) :
  (y < h)%nat -> (x < w)%nat ->
  grid_at (map (fun r => map (fun c => f r c) (indices w)) (indices h)) y x
    = Some (f (Z.of_nat y) (Z.of_nat x)).
Proof.
  intros Hy Hx. unfold grid_at.
  rewrite nth_error_map, (nth_error_indices_lt Hy); simpl.
  rewrite nth_error_map, (nth_error_indices_lt Hx); reflexivity.
Qed.

(** *** Sorted lists *)

Lemma sorted_split {A : Type} (R : A -> A -> Prop) (l1 : list A) :
  forall d l2,
    StronglySorted R (l1 ++ d :: l2) ->
    (forall k, In k l1 -> R k d) /\ (forall k, In k l2 -> R d k).
Proof.
  induction l1 as [|a l1 IH]; intros d l2 Hs; simpl in Hs.
  - apply StronglySorted_inv in Hs. destruct Hs as [_ Hall].
    rewrite Forall_forall in Hall. split; [intros k [] | exact Hall].
  - apply StronglySorted_inv in Hs. destruct Hs as [Hs Hall].
    rewrite Forall_forall in Hall.
    destruct (IH _ _ Hs) as [H1 H2]. split; [|exact H2].
    intros k [<- | Hk]; [|apply H1, Hk].
    apply Hall, in_or_app. right. left. reflexivity.
Qed.

Lemma sorted_filter {A : Type} (R : A -> A -> Prop) (p : A -> bool)
    (l : list A) :
  StronglySorted R l -> StronglySorted R (filter p l).
Proof.
  induction 1 as [|a l Hs IH Hall]; simpl; [constructor|].
  destruct (p a); [|exact IH].
  constructor; [exact IH|].
  rewrite Forall_forall in *. intros k Hk.
  apply filter_In in Hk. apply Hall, Hk.
Qed.

(** A sorted list of which every element is [d], and [d] is one: the list
    of [d] alone, when nothing comes before itself. *)
Lemma sorted_singleton {A : Type} (R : A -> A -> Prop) (d : A) (l : list A) :
  (forall a, ~ R a a) ->
  StronglySorted R l -> In d l -> (forall k, In k l -> k = d) -> l = [d].
Proof.
  intros Hirr Hs Hin Hall.
  destruct l as [|a l]; [destruct Hin|].
  assert (Ha : a = d) by (apply Hall; left; reflexivity). subst a.
  destruct l as [|b l]; [reflexivity|].
  assert (Hb : b = d) by (apply Hall; right; left; reflexivity). subst b.
  apply StronglySorted_inv in Hs. destruct Hs as [_ Hd].
  rewrite Forall_forall in Hd.
  exfalso. apply (Hirr d), Hd. left. reflexivity.
Qed.

(** *** Grids of markers *)

Lemma is_none_spec {A : Type} (o : option A) : is_none o = true <-> o = None.
Proof. destruct o; simpl; split; congruence. Qed.

Lemma entirely_invalid_spec {A : Type} (grid : list (list (option A))) :
  entirely_invalid grid = true <->
  (forall y x p, grid_at grid y x = Some p -> p = None).
Proof.
  unfold entirely_invalid, grid_at. rewrite forallb_forall. split.
  - intros Hall y x p Hat.
    destruct (nth_error grid y) as [row|] eqn:Ey; [|discriminate].
    apply nth_error_In in Ey, Hat.
    specialize (Hall row Ey). rewrite forallb_forall in Hall.
    apply is_none_spec, Hall, Hat.
  - intros Hall row Hrow. apply forallb_forall. intros p Hp.
    apply In_nth_error in Hrow, Hp.
    destruct Hrow as [y Hy], Hp as [x Hx].
    apply is_none_spec. apply (Hall y x). rewrite Hy. exact Hx.
Qed.

(** No grid at all is returned only for a grid of markers. *)
Lemma whole_result_cases {point : Type} {fallback : Fallback point}
    (grid : list (list (option point))) :
  whole_result grid = Some grid
  \/ (whole_result grid = None
      /\ forall y x p, grid_at grid y x = Some p -> p = None).
Proof.
  unfold whole_result.
  destruct (entirely_invalid grid) eqn:E; simpl; [|left; reflexivity].
  destruct (falls_back grid); [right | left; reflexivity].
  split; [reflexivity|]. apply entirely_invalid_spec, E.
Qed.

End GridFacts.

(* ================================================================= *)
(** ** Block matching *)

Module BlockMatchingFacts.

Import Search BlockMatching.

Local Open Scope Z_scope.

(** *** The candidates and their order *)

Lemma precedes_irrefl (a : Z) : ~ precedes a a.
Proof. unfold precedes. lia. Qed.

Lemma pairs_from_In (a n : nat) (k : Z) :
  In k (flat_map (fun i => [- Z.of_nat (S i); Z.of_nat (S i)]) (seq a n)) <->
  Z.of_nat a < Z.abs k <= Z.of_nat (a + n) /\ k <> 0.
Proof.
  rewrite in_flat_map. split.
  - intros (i & Hi & Hk). apply in_seq in Hi.
    destruct Hk as [<- | [<- | []]]; lia.
  - intros [Hk H0]. exists (Z.to_nat (Z.abs k) - 1)%nat. split.
    + apply in_seq. lia.
    + simpl. lia.
Qed.

Lemma pairs_from_sorted (n : nat) : forall a,
  StronglySorted precedes
    (flat_map (fun i => [- Z.of_nat (S i); Z.of_nat (S i)]) (seq a n)).
Proof.
  induction n as [|n IH]; intros a; simpl; [constructor|].
  constructor; [constructor; [apply IH|]|].
  - apply Forall_forall. intros k Hk. apply pairs_from_In in Hk.
    unfold precedes. lia.
  - apply Forall_forall. intros k [<- | Hk].
    + unfold precedes. lia.
    + apply pairs_from_In in Hk. unfold precedes. lia.
Qed.

Lemma by_magnitude_sorted (n : nat) : StronglySorted precedes (by_magnitude n).
Proof.
  unfold by_magnitude. constructor; [apply pairs_from_sorted|].
  apply Forall_forall. intros k Hk. apply pairs_from_In in Hk.
  unfold precedes. lia.
Qed.

Lemma by_magnitude_In (n : nat) (k : Z) :
  In k (by_magnitude n) <-> Z.abs k <= Z.of_nat n.
Proof.
  unfold by_magnitude. simpl. rewrite pairs_from_In. lia.
Qed.

(** The candidates are the numbers of the inclusive range. *)
Lemma candidates_In (dmin dmax d : Z) :
  In d (candidates dmin dmax) <-> dmin <= d <= dmax.
Proof.
  unfold candidates. rewrite filter_In, by_magnitude_In.
  rewrite andb_true_iff, !Z.leb_le. lia.
Qed.

Lemma candidates_sorted (dmin dmax : Z) :
  StronglySorted precedes (candidates dmin dmax).
Proof. apply GridFacts.sorted_filter, by_magnitude_sorted. Qed.

(** No candidate met before a candidate has a larger magnitude, and none
    met after it a smaller one. *)
Lemma candidates_split (dmin dmax d : Z) (before after : list Z) :
  candidates dmin dmax = before ++ d :: after ->
  (forall k, In k before -> Z.abs k <= Z.abs d)
  /\ (forall k, In k after -> Z.abs d <= Z.abs k).
Proof.
  intros E. pose proof (candidates_sorted dmin dmax) as Hs. rewrite E in Hs.
  apply GridFacts.sorted_split in Hs. destruct Hs as [H1 H2].
  split; intros k Hk; [apply H1 in Hk | apply H2 in Hk];
    unfold precedes in Hk; lia.
Qed.

(** A range of zero length has one candidate. *)
Lemma candidates_zero_length (d : Z) : candidates d d = [d].
Proof.
  apply (GridFacts.sorted_singleton (R := precedes)).
  - exact precedes_irrefl.
  - apply candidates_sorted.
  - apply candidates_In. lia.
  - intros k Hk. apply candidates_In in Hk. lia.
Qed.

Section WithSimilarity.

Context {sample cost : Type} {similarity : Similarity sample cost}.

(** The element at [(y, x)] of a result is the disparity of that pixel. *)
Lemma block_matching_at (image_0 image_1 : image sample)
    (disparity_range block_size : Z * Z)
    (g : list (list (option Z))) (y x : nat) (r : option Z) :
  block_matching image_0 image_1 disparity_range block_size = inr g ->
  grid_at g y x = Some r ->
  r = pixel_disparity image_0 image_1 disparity_range
        (fst block_size / 2) (snd block_size / 2)
        (Z.of_nat y) (Z.of_nat x)
  /\ (y < length image_0)%nat /\ (x < length (hd [] image_0))%nat.
Proof.
  unfold block_matching.
  destruct (negb (same_shape image_0 image_1)); [discriminate|].
  destruct (negb (odd_block block_size)); [discriminate|].
  destruct (snd disparity_range <? fst disparity_range); [discriminate|].
  intros Hg. inversion Hg; subst g. unfold disparity_map.
  intros Hat.
  apply (GridFacts.grid_at_indices
           (fun r c => pixel_disparity image_0 image_1 disparity_range
                         (fst block_size / 2) (snd block_size / 2) r c))
    in Hat.
  exact Hat.
Qed.

(** A result of a call has, at every pixel of [image_0], the disparity of
    that pixel. *)
Lemma block_matching_pixel (image_0 image_1 : image sample)
    (disparity_range block_size : Z * Z)
    (g : list (list (option Z))) (y x : nat) :
  block_matching image_0 image_1 disparity_range block_size = inr g ->
  (y < length image_0)%nat -> (x < length (hd [] image_0))%nat ->
  grid_at g y x
  = Some (pixel_disparity image_0 image_1 disparity_range
            (fst block_size / 2) (snd block_size / 2)
            (Z.of_nat y) (Z.of_nat x)).
Proof.
  unfold block_matching.
  destruct (negb (same_shape image_0 image_1)); [discriminate|].
  destruct (negb (odd_block block_size)); [discriminate|].
  destruct (snd disparity_range <? fst disparity_range); [discriminate|].
  intros Hg Hy Hx. inversion Hg; subst g. unfold disparity_map.
  apply (GridFacts.grid_at_indices_lt
           (fun r c => pixel_disparity image_0 image_1 disparity_range
                         (fst block_size / 2) (snd block_size / 2) r c));
    assumption.
Qed.

(** C1.  In a result of [block_matching], every pixel that does not hold
    the invalid marker holds a disparity of the inclusive range. *)
Theorem block_matching_disparity_in_range
    (image_0 image_1 : image sample) (disparity_range block_size : Z * Z)
    (g : list (list (option Z))) (y x : nat) (d : Z) :
  block_matching image_0 image_1 disparity_range block_size = inr g ->
  grid_at g y x = Some (Some d) ->
  fst disparity_range <= d <= snd disparity_range.
Proof.
  intros Hg Hat.
  destruct (block_matching_at _ _ _ _ _ _ Hg Hat) as [Hd _].
  unfold pixel_disparity in Hd.
  destruct (fits _ _ _ _ _ _); [|discriminate].
  destruct (argmin _ _ _) as [[k c]|] eqn:Ea; [|discriminate].
  simpl in Hd. inversion Hd; subst k.
  apply SearchFacts.argmin_from_In in Ea.
  destruct Ea as [Ea | [Hin _]]; [discriminate|].
  apply candidates_In, Hin.
Qed.

(** C5.  At a pixel where [block_matching] evaluates candidates, one whose
    window fits and at which some candidate of the range has a score, a
    disparity is selected.  It is a candidate of the range with a score;
    no candidate scores strictly less; every candidate that ties with it
    has at least its magnitude; and every candidate met before it scores
    strictly more, so it is the first one met among those of least score.
    For scores that can be compared: all but NaN in binary32. *)
Theorem block_matching_selects_first_minimum
    (ordered : cost -> Prop) `{!StrictWeakOrder ordered cost_ltb}
    (image_0 image_1 : image sample) (disparity_range block_size : Z * Z)
    (g : list (list (option Z))) (y x : nat) (c0 : Z) (s0 : cost) :
  let hh := fst block_size / 2 in
  let hw := snd block_size / 2 in
  let score_of :=
    candidate_score image_0 image_1 hh hw (Z.of_nat y) (Z.of_nat x) in
  block_matching image_0 image_1 disparity_range block_size = inr g ->
  (y < length image_0)%nat -> (x < length (hd [] image_0))%nat ->
  fits (height image_0) (width image_0) (Z.of_nat y) (Z.of_nat x) hh hw
  = true ->
  fst disparity_range <= c0 <= snd disparity_range ->
  score_of c0 = Some s0 ->
  (forall c sc,
      fst disparity_range <= c <= snd disparity_range ->
      score_of c = Some sc -> ordered sc) ->
  exists d s,
    grid_at g y x = Some (Some d)
    /\ fst disparity_range <= d <= snd disparity_range
    /\ score_of d = Some s
    /\ (forall c sc,
          fst disparity_range <= c <= snd disparity_range ->
          score_of c = Some sc ->
          cost_ltb sc s = false
          /\ (cost_ltb s sc = false -> Z.abs d <= Z.abs c))
    /\ exists before after,
         candidates (fst disparity_range) (snd disparity_range)
         = before ++ d :: after
         /\ forall c sc,
              In c before -> score_of c = Some sc -> cost_ltb s sc = true.
Proof.
  intros hh hw score_of Hg Hy Hx Hfit Hc0 Hs0 Hord.
  rewrite (block_matching_pixel _ _ _ _ Hg Hy Hx).
  unfold pixel_disparity. fold hh hw. rewrite Hfit. fold score_of.
  set (all := candidates (fst disparity_range) (snd disparity_range)).
  assert (Hord' : forall k c, In k all -> score_of k = Some c -> ordered c).
  { intros k c Hk. apply Hord, candidates_In, Hk. }
  pose proof (@SearchFacts.argmin_best_of _ _ cost_ltb score_of ordered _
                all Hord') as Hbest.
  destruct (argmin cost_ltb score_of all) as [[d s]|]; simpl in Hbest.
  - destruct Hbest as [Hs (before & after & Hsplit & Hbefore & Hafter)].
    destruct (candidates_split _ _ _ _ _ Hsplit) as [Hlo Hhi].
    assert (Hin : fst disparity_range <= d <= snd disparity_range).
    { apply candidates_In. fold all. rewrite Hsplit.
      apply in_or_app. right. left. reflexivity. }
    pose proof (Hord _ _ Hin Hs) as Os.
    exists d, s. split; [reflexivity|]. split; [exact Hin|].
    split; [exact Hs|]. split.
    + intros c sc Hc Hsc.
      pose proof (Hord _ _ Hc Hsc) as Osc.
      apply candidates_In in Hc. fold all in Hc. rewrite Hsplit in Hc.
      apply in_app_or in Hc. destruct Hc as [Hc | [<- | Hc]].
      * pose proof (Hbefore _ _ Hc Hsc) as Hlt. split.
        -- destruct (cost_ltb sc s) eqn:E; [|reflexivity].
           pose proof (ltb_trans s sc s Os Osc Os Hlt E) as Hss.
           rewrite (ltb_irrefl s Os) in Hss. discriminate.
        -- intros E. rewrite Hlt in E. discriminate.
      * rewrite Hs in Hsc. inversion Hsc; subst sc. split.
        -- apply ltb_irrefl, Os.
        -- intros _. lia.
      * split.
        -- eapply Hafter; eauto.
        -- intros _. apply Hhi, Hc.
    + exists before, after. split; [exact Hsplit | exact Hbefore].
  - exfalso. rewrite (Hbest c0) in Hs0; [discriminate|].
    apply candidates_In, Hc0.
Qed.

(** The grid of a call that passes the checks. *)
Lemma block_matching_accepts (image_0 image_1 : image sample)
    (disparity_range block_size : Z * Z) :
  same_shape image_0 image_1 = true ->
  odd_block block_size = true ->
  fst disparity_range <= snd disparity_range ->
  block_matching image_0 image_1 disparity_range block_size
  = inr (disparity_map image_0 image_1 disparity_range block_size).
Proof.
  intros Hs Ho Hr. unfold block_matching. rewrite Hs, Ho. simpl.
  destruct (Z.ltb_spec (snd disparity_range) (fst disparity_range));
    [lia | reflexivity].
Qed.

Lemma block_matching_rejects (image_0 image_1 : image sample)
    (disparity_range block_size : Z * Z) :
  (same_shape image_0 image_1 = false
   \/ odd_block block_size = false
   \/ (snd disparity_range < fst disparity_range)%Z) ->
  exists e,
    block_matching image_0 image_1 disparity_range block_size = inl e.
Proof.
  intros Hbad. unfold block_matching.
  destruct (same_shape image_0 image_1) eqn:Es; simpl; [|eexists; reflexivity].
  destruct (odd_block block_size) eqn:Eo; simpl; [|eexists; reflexivity].
  destruct (Z.ltb_spec (snd disparity_range) (fst disparity_range));
    [eexists; reflexivity|].
  exfalso. destruct Hbad as [Hb | [Hb | Hb]]; [discriminate | discriminate | lia].
Qed.

(** With the one candidate of a range of zero length, a pixel whose window
    fits gets that candidate when it has a score, and the marker when it
    has none. *)
Lemma pixel_disparity_zero_length (image_0 image_1 : image sample)
    (d hh hw y x : Z) :
  pixel_disparity image_0 image_1 (d, d) hh hw y x
  = if fits (height image_0) (width image_0) y x hh hw
    then option_map (fun _ => d) (candidate_score image_0 image_1 hh hw y x d)
    else None.
Proof.
  unfold pixel_disparity. destruct (fits _ _ _ _ _ _); [|reflexivity].
  cbn [fst snd]. rewrite candidates_zero_length, SearchFacts.argmin_singleton.
  destruct (candidate_score _ _ _ _ _ _ _); reflexivity.
Qed.

End WithSimilarity.

End BlockMatchingFacts.

(* ================================================================= *)
(** ** Block matching on the test images *)

Module ScenarioFacts.

Import Search BlockMatching Scenario.

Local Open Scope Z_scope.

(** The order of binary32 is a strict weak order on the numbers that are
    not NaN; the two zeros are equivalent. *)
#[export] Instance float32_order
    : StrictWeakOrder (fun x => Float32.is_nan x = false) Float32.ltb.
Proof.
  constructor.
  - intros a Ha. apply Float32Facts.ltb_irrefl, Ha.
  - intros a b c Ha Hb Hc. apply Float32Facts.ltb_trans; assumption.
  - intros a b c Ha Hb Hc. apply Float32Facts.ltb_below; assumption.
Qed.

(** The disparity map of the two 8x8 gradients, block 3x3, range [0, 4]. *)
Lemma gradient_disparities :
  block_matching (similarity := similarity_float32) gradient_0 gradient_1 (0, 4) (3, 3)
  = inr (disparity_grid [2; 2; 2; 2; 1; 0]).
Proof. vm_compute. reflexivity. Qed.

(** The disparity map of the flat image against itself over the range
    [-2, 2]: every candidate with a score ties. *)
Lemma flat_disparities :
  block_matching (similarity := similarity_float32) flat flat (-2, 2) (3, 3)
  = inr (disparity_grid [0; 0; 0; 0; 0; 0]).
Proof. vm_compute. reflexivity. Qed.

(** C1 at pixel (1, 1) of the two gradients. *)
Lemma block_matching_disparity_in_range_witness :
  block_matching (similarity := similarity_float32) gradient_0 gradient_1 (0, 4) (3, 3)
  = inr (disparity_grid [2; 2; 2; 2; 1; 0])
  /\ grid_at (disparity_grid [2; 2; 2; 2; 1; 0]) 1 1 = Some (Some 2)
  /\ 0 <= 2 <= 4.
Proof.
  split; [exact gradient_disparities|]. split; [reflexivity|].
  exact (BlockMatchingFacts.block_matching_disparity_in_range
           gradient_0 gradient_1 (0, 4) (3, 3) 1 1
           gradient_disparities eq_refl).
Defined.

(** C5 at pixel (3, 3) of the flat image in binary32 with the range
    [-2, 2], where all five candidates tie. *)
Lemma block_matching_selects_first_minimum_witness :
  let score_of :=
    candidate_score (similarity := similarity_float32) flat flat 1 1 3 3 in
  exists d s,
    grid_at (disparity_grid [0; 0; 0; 0; 0; 0]) 3 3 = Some (Some d)
    /\ -2 <= d <= 2
    /\ score_of d = Some s
    /\ (forall c sc,
          -2 <= c <= 2 ->
          score_of c = Some sc ->
          Float32.ltb sc s = false
          /\ (Float32.ltb s sc = false -> Z.abs d <= Z.abs c))
    /\ exists before after,
         candidates (-2) 2 = before ++ d :: after
         /\ forall c sc,
              In c before -> score_of c = Some sc -> Float32.ltb s sc = true.
Proof.
  apply (@BlockMatchingFacts.block_matching_selects_first_minimum
           _ _ similarity_float32 (fun x => Float32.is_nan x = false)
           float32_order flat flat (-2, 2) (3, 3)
           (disparity_grid [0; 0; 0; 0; 0; 0]) 3 3 0 (S754_zero false)
           flat_disparities).
  - simpl. lia.
  - simpl. lia.
  - reflexivity.
  - simpl. lia.
  - reflexivity.
  - intros c sc Hc Hsc. simpl in Hc.
    assert (Hc' : c = -2 \/ c = -1 \/ c = 0 \/ c = 1 \/ c = 2) by lia.
    destruct Hc' as [-> | [-> | [-> | [-> | ->]]]];
      vm_compute in Hsc; inversion Hsc; reflexivity.
Defined.

End ScenarioFacts.

(* ================================================================= *)
(** ** Plane sweeping *)

Module PlaneSweepingFacts.

Import Search PlaneSweeping.

(** A range of zero length has one candidate depth, the depth of the range,
    whatever the step. *)
Lemma depth_candidates_zero_length (d step_size : Q) :
  exists c, depth_candidates d d step_size = [c] /\ (c == d)%Q.
Proof.
  unfold depth_candidates.
  assert (E : Qceiling ((d - d) / step_size) = 0%Z).
  { rewrite (Qceiling_comp ((d - d) / step_size) 0); [reflexivity|].
    unfold Qdiv. ring. }
  rewrite E. simpl. eexists. split; [reflexivity|].
  assert (Ed : (d + inject_Z 0 * step_size == d)%Q) by ring.
  rewrite Ed. apply Q.min_id.
Qed.

Section WithGeometry.

Context {sample cost lens pose point coord : Type}.
Context {similarity : Similarity sample cost} {aggregate : Aggregate cost}.
Context {geometry : Geometry lens pose point coord}
  {sampler : Sampler sample coord} {fallback : Fallback point}.

Variable reference : image sample.
Variable lens_model : lens.
Variable secondary_images : list (image sample).
Variable secondary_lens_models : list lens.
Variable secondary_transforms : list pose.
Variable depth_range : Q * Q.
Variable step_size : Q.
Variable block_size : Z * Z.

Local Abbreviation swept :=
  (swept_grid reference lens_model secondary_images secondary_lens_models
     secondary_transforms depth_range step_size block_size).

(** A call that passes the four checks returns a result. *)
Lemma plane_sweeping_accepts :
  same_lengths secondary_images secondary_lens_models secondary_transforms
  = true ->
  (0 < step_size)%Q ->
  (fst depth_range <= snd depth_range)%Q ->
  odd_block block_size = true ->
  plane_sweeping reference lens_model secondary_images secondary_lens_models
    secondary_transforms depth_range step_size block_size
  = inr (whole_result swept).
Proof.
  intros Hl Hs Hr Ho. unfold plane_sweeping. rewrite Hl, Ho. simpl.
  destruct (Qle_bool step_size 0) eqn:Es.
  - apply Qle_bool_iff in Es. exfalso. apply (Qlt_not_le _ _ Hs Es).
  - apply Qle_bool_iff in Hr. rewrite Hr. reflexivity.
Qed.

(** Each violated precondition is an error of the call. *)
Lemma plane_sweeping_rejects :
  (same_lengths secondary_images secondary_lens_models secondary_transforms
   = false
   \/ (step_size <= 0)%Q
   \/ ~ (fst depth_range <= snd depth_range)%Q
   \/ odd_block block_size = false) ->
  exists e,
    plane_sweeping reference lens_model secondary_images
      secondary_lens_models secondary_transforms depth_range step_size
      block_size = inl e.
Proof.
  intros Hbad. unfold plane_sweeping.
  destruct (same_lengths _ _ _) eqn:El; simpl; [|eexists; reflexivity].
  destruct (Qle_bool step_size 0) eqn:Es; [eexists; reflexivity|].
  destruct (Qle_bool (fst depth_range) (snd depth_range)) eqn:Er; simpl;
    [|eexists; reflexivity].
  destruct (odd_block block_size) eqn:Eo; simpl; [|eexists; reflexivity].
  exfalso. destruct Hbad as [H | [H | [H | H]]].
  - discriminate.
  - apply Qle_bool_iff in H. congruence.
  - apply H, Qle_bool_iff, Er.
  - discriminate.
Qed.

(** With one candidate depth, a pixel whose window fits gets its point at
    that depth when the depth has a cost, and the marker when it has
    none. *)
Lemma pixel_point_one_depth
    (secondaries : list (image sample * lens * pose)) (c : Q)
    (hh hw y x : Z) :
  pixel_point reference lens_model secondaries [c] hh hw y x
  = if fits (height reference) (width reference) y x hh hw
    then option_map (fun _ => back_project lens_model (y, x) c)
           (depth_cost reference lens_model secondaries hh hw y x c)
    else None.
Proof.
  unfold pixel_point. destruct (fits _ _ _ _ _ _); [|reflexivity].
  rewrite SearchFacts.argmin_singleton.
  destruct (depth_cost _ _ _ _ _ _ _ _); reflexivity.
Qed.

End WithGeometry.

End PlaneSweepingFacts.

(* ================================================================= *)
(** ** Ranges of zero length and rejected calls *)

Module ContractFacts.

Import Search BlockMatching PlaneSweeping.


End ContractFacts.

(* ================================================================= *)
(** ** The two functions on the test images and the test scene *)

Module SceneFacts.

Import Search BlockMatching PlaneSweeping Scenario.


End SceneFacts.

(* ================================================================= *)
(** ** Notebook 04: reshaping *)

Module ArraysFacts.

Import Projection Arrays.

Lemma firstn_skipn_app {A : Type} (r rest : list A) :
  firstn (length r) (r ++ rest) = r /\ skipn (length r) (r ++ rest) = rest.
Proof.
  split.
  - rewrite firstn_app, Nat.sub_diag, firstn_all. simpl. apply app_nil_r.
  - rewrite skipn_app, Nat.sub_diag, skipn_all. reflexivity.
Qed.

(** Rows of one length, laid end to end and cut again, are the rows. *)
Lemma chunks_concat {A : Type} (w : nat) (a : list (list A)) :
  Forall (fun row => length row = w) a ->
  chunks (length a) w (concat a) = a.
Proof.
  induction 1 as [|row a Hrow _ IH]; simpl; [reflexivity|].
  subst w. destruct (firstn_skipn_app row (concat a)) as [-> ->].
  rewrite IH. reflexivity.
Qed.

Lemma concat_uniform_length {A : Type} (w : nat) (a : list (list A)) :
  Forall (fun row => length row = w) a ->
  length (concat a) = (length a * w)%nat.
Proof.
  induction 1 as [|row a Hrow _ IH]; simpl; [reflexivity|].
  rewrite length_app, IH, Hrow. reflexivity.
Qed.

Lemma chunks_length {A : Type} (n w : nat) : forall l : list A,
  length (chunks n w l) = n.
Proof.
  induction n as [|n IH]; intros l; simpl; [reflexivity|].
  rewrite IH. reflexivity.
Qed.

(** A sequence of [n * w] elements, cut and laid end to end again, is the
    sequence, and every row of the cut has [w] elements. *)
Lemma concat_chunks {A : Type} (n w : nat) : forall l : list A,
  length l = (n * w)%nat -> concat (chunks n w l) = l.
Proof.
  induction n as [|n IH]; intros l Hl; simpl in *.
  - destruct l; [reflexivity | discriminate].
  - rewrite IH; [apply firstn_skipn|]. rewrite length_skipn. lia.
Qed.

Lemma chunks_row_lengths {A : Type} (n w : nat) : forall l : list A,
  length l = (n * w)%nat ->
  Forall (fun row => length row = w) (chunks n w l).
Proof.
  induction n as [|n IH]; intros l Hl; simpl in *; constructor.
  - rewrite length_firstn. lia.
  - apply IH. rewrite length_skipn. lia.
Qed.

(** Row [i] of the cut is the [i]-th stretch of [w] elements. *)
Lemma chunks_rows {A : Type} (n w : nat) : forall l : list A,
  chunks n w l = map (fun i => firstn w (skipn (i * w) l)) (seq 0 n).
Proof.
  induction n as [|n IH]; intros l; simpl; [reflexivity|].
  f_equal. rewrite IH, <- seq_shift, map_map.
  apply map_ext. intros i. rewrite skipn_skipn. simpl.
  f_equal. f_equal. lia.
Qed.

Lemma firstn_2_skipn {A : Type} (d : A) (k : nat) : forall l : list A,
  (k + 1 < length l)%nat ->
  firstn 2 (skipn k l) = [nth k l d; nth (S k) l d].
Proof.
  induction k as [|k IH]; intros l Hl.
  - destruct l as [|a [|b l]]; simpl in Hl; try lia. reflexivity.
  - destruct l as [|a l]; simpl in Hl; [lia|].
    simpl skipn. rewrite IH by lia. reflexivity.
Qed.

(** The flattened grid, cut back with its own shape, is the grid, and so is
    every array computed from it element by element. *)
Lemma reshape_grid_flatten {A B : Type} (f : A -> B) (h w : nat)
    (a : list (list A)) :
  length a = h -> Forall (fun row => length row = w) a ->
  reshape_grid h w (map f (flatten_grid a)) = Some (map (map f) a).
Proof.
  intros Hh Hw. unfold reshape_grid, flatten_grid.
  rewrite length_map, (concat_uniform_length Hw), Hh, Nat.eqb_refl.
  rewrite concat_map. f_equal.
  rewrite <- Hh, <- (length_map (map f) a). apply chunks_concat.
  apply Forall_map. eapply Forall_impl; [|exact Hw].
  intros row Hrow. simpl. rewrite length_map. exact Hrow.
Qed.

Lemma reshape_grid_wrong_size {A : Type} (h w : nat) (a : list A) :
  length a <> (h * w)%nat -> reshape_grid h w a = None.
Proof.
  intros Hn. unfold reshape_grid.
  destruct (Nat.eqb_spec (length a) (h * w)); [contradiction | reflexivity].
Qed.

Lemma grid_at_map {A B : Type} (f : A -> B) (a : list (list A)) (y x : nat) :
  grid_at (map (map f) a) y x = option_map f (grid_at a y x).
Proof.
  unfold grid_at. rewrite nth_error_map.
  destruct (nth_error a y) as [row|]; simpl; [|reflexivity].
  apply nth_error_map.
Qed.

(** An array of [2 n] rows of six elements reshaped to blocks of two rows:
    block [i] holds the rows [2 i] and [2 i + 1]. *)
Lemma reshape_blocks_pairs {A : Type} (rows : list (list A)) (n : nat) :
  length rows = (2 * n)%nat ->
  Forall (fun row => length row = 6%nat) rows ->
  reshape_blocks 2 6 rows
  = Some (map (fun i => [nth (2 * i) rows []; nth (S (2 * i)) rows []])
              (seq 0 n)).
Proof.
  intros Hlen Hrows. unfold reshape_blocks.
  change (2 * 6)%nat with 12%nat.
  assert (Hsize : length (concat rows) = (n * 12)%nat)
    by (rewrite (concat_uniform_length Hrows); lia).
  assert (Hsix : (length (concat rows) / 6 = length rows)%nat)
    by (rewrite (concat_uniform_length Hrows); apply Nat.div_mul; discriminate).
  rewrite Hsix, (chunks_concat Hrows), Hsize.
  rewrite Nat.Div0.mod_mul, Nat.div_mul by discriminate.
  cbn [Nat.eqb]. rewrite chunks_rows. f_equal.
  apply map_ext_in. intros i Hi. apply in_seq in Hi.
  replace (i * 2)%nat with (2 * i)%nat by lia.
  apply firstn_2_skipn. lia.
Qed.

Lemma first_of_axis1_singletons {A B : Type} (f : A -> B) (l : list A) :
  first_of_axis1 (map (map f) (map (fun q => [q]) l)) = Some (map f l).
Proof.
  unfold first_of_axis1.
  induction l as [|a l IH]; simpl; [reflexivity|].
  rewrite IH. reflexivity.
Qed.

End ArraysFacts.

(* ================================================================= *)
(** ** Notebook 04: the cells *)

Module NotebookFacts.

Import Projection Arrays Notebook.

(** *** A pose that only translates *)

(** With [rvec = 0], [project_points] projects the points shifted by
    [tvec]: in binary32, bit for bit, for plain points and any [tvec], when
    [Rodrigues] gives the identity at the zero vector. *)
Theorem project_points_translation_float32 (L : Type)
    (ops : LensOps Float32.float32 L)
    (Rodrigues : vec3 Float32.float32 -> mat3 Float32.float32)
    (points : list (vec3 Float32.float32)) (tvec : vec3 Float32.float32)
    (lens_model : L) :
  Rodrigues zero_vec = identity ->
  forallb plain_point points = true ->
  project_points Rodrigues points zero_vec tvec lens_model =
    project_points_simple (add_row points tvec) lens_model.
Proof.
  intros HR Hplain.
  rewrite (@ProjectionFacts.project_points_transformed _ float32_arith _ _
             Float32Facts.mul_comm).
  rewrite (ProjectionFacts.translated_points_float32 Rodrigues points tvec HR
             Hplain).
  reflexivity.
Qed.


(** The first point of the grid and the translation of [points_shifted]. *)
Lemma project_points_translation_float32_witness :
  let points :=
    [mk3 (Float32.of_Z (-20)) (Float32.of_Z (-20)) (Float32.of_Z 0)] in
  let tvec := mk3 (Float32.of_Z 0) (Float32.of_Z 0) (Float32.of_Z 100) in
  let lens_model := notebook_lens_model Float32.of_Z in
  project_points (fun _ => identity) points zero_vec tvec lens_model =
    project_points_simple (add_row points tvec) lens_model.
Proof.
  intros points tvec lens_model.
  apply project_points_translation_float32; reflexivity.
Defined.

(** *** Pixel grids *)

Section Grids.

Context {L : Type} {ops : LensOps Float32.float32 L}.
Variable Rodrigues : vec3 Float32.float32 -> mat3 Float32.float32.

(** The cells that project the grid flatten it and reshape the pixels
    back to its shape.  For a grid of ten rows of ten points the pixel of
    [projector_points] at row [i], column [j] is the projection of the
    point at row [i], column [j], and [detected_pixels] is ten rows of ten
    pixels that hold, row after row, the pixels [project_points] returns.
    With any other number of points than 100 the reshape raises. *)
Theorem pixel_grids_follow_the_point_grid
    (points : list (list (vec3 Float32.float32))) (lens_model : L)
    (rvec tvec : vec3 Float32.float32) :
  (length points = 10%nat ->
   Forall (fun row => length row = 10%nat) points ->
   projector_points points lens_model
   = Some (map (map (project_point lens_model)) points)
   /\ exists pixels,
        detected_pixels Rodrigues points lens_model rvec tvec = Some pixels
        /\ length pixels = 10%nat
        /\ Forall (fun row => length row = 10%nat) pixels
        /\ flatten_grid pixels
           = project_points Rodrigues (flatten_grid points) rvec tvec
               lens_model)
  /\ (length (flatten_grid points) <> 100%nat ->
      projector_points points lens_model = None
      /\ detected_pixels Rodrigues points lens_model rvec tvec = None).
Proof.
  assert (Hlen : length (project_points Rodrigues (flatten_grid points) rvec
                           tvec lens_model)
                 = length (flatten_grid points)).
  { unfold project_points.
    rewrite ProjectionFacts.project_points_simple_length.
    unfold add_row, matmul. rewrite !length_map. reflexivity. }
  split.
  - intros Hh Hw. unfold projector_points, detected_pixels. split.
    + rewrite ProjectionFacts.project_points_simple_map.
      apply (ArraysFacts.reshape_grid_flatten (project_point lens_model) Hh Hw).
    + assert (H100 : length (flatten_grid points) = (10 * 10)%nat).
      { unfold flatten_grid.
        rewrite (ArraysFacts.concat_uniform_length Hw), Hh.
        reflexivity. }
      unfold reshape_grid. rewrite Hlen, H100, Nat.eqb_refl.
      eexists. split; [reflexivity|].
      split; [apply ArraysFacts.chunks_length|].
      split; [|apply ArraysFacts.concat_chunks; rewrite Hlen; exact H100].
      apply ArraysFacts.chunks_row_lengths. rewrite Hlen. exact H100.
  - intros Hn. unfold projector_points, detected_pixels.
    split; apply ArraysFacts.reshape_grid_wrong_size.
    + rewrite ProjectionFacts.project_points_simple_length. exact Hn.
    + rewrite Hlen. exact Hn.
Qed.

Lemma forallb_concat {A : Type} (f : A -> bool) (a : list (list A)) :
  Forall (fun row => forallb f row = true) a ->
  forallb f (concat a) = true.
Proof.
  induction 1 as [|row a Hrow _ IH]; simpl; [reflexivity|].
  rewrite forallb_app, Hrow, IH. reflexivity.
Qed.

(** At the values the sliders start from, all zero but [tz = 100],
    [plot_with_sliders] plots the pixels of [projector_points]: the grid
    moved by the pose is the grid of [points_shifted].  For plain points,
    when [Rodrigues] gives the identity at the zero vector. *)
Theorem sliders_start_from_projector_points
    (points : list (list (vec3 Float32.float32))) (lens_model : L) :
  Rodrigues zero_vec = identity ->
  Forall (fun row => forallb plain_point row = true) points ->
  plot_with_sliders_pixels Rodrigues points lens_model
    (float64_of_Z 0) (float64_of_Z 0) (float64_of_Z 0)
    (float64_of_Z 0) (float64_of_Z 0) (float64_of_Z 100)
  = projector_points (points_shifted points) lens_model.
Proof.
  intros HR Hplain.
  unfold plot_with_sliders_pixels, projector_points, points_shifted,
    add_grid, flatten_grid.
  change (astype_float32 (float64_of_Z 0)) with (Float32.of_Z 0).
  change (astype_float32 (float64_of_Z 100)) with (Float32.of_Z 100).
  change (mk3 (Float32.of_Z 0) (Float32.of_Z 0) (Float32.of_Z 0))
    with (@zero_vec Float32.float32 float32_arith) at 1.
  rewrite (@ProjectionFacts.project_points_transformed _ float32_arith _ _
             Float32Facts.mul_comm).
  rewrite (ProjectionFacts.translated_points_float32 Rodrigues _ _ HR
             (forallb_concat plain_point Hplain)).
  unfold add_row at 1. rewrite concat_map. reflexivity.
Qed.

End Grids.

(** A grid of ten rows of ten times the point (-20, -20, 0), the translation
    of the notebook's data set, and the notebook's lens model. *)
Lemma pixel_grids_follow_the_point_grid_witness :
  let p := mk3 (Float32.of_Z (-20)) (Float32.of_Z (-20)) (Float32.of_Z 0) in
  let points := repeat (repeat p 10) 10 in
  let lens_model := notebook_lens_model Float32.of_Z in
  let tvec := mk3 (Float32.of_Z 5) (Float32.of_Z (-4)) (Float32.of_Z 98) in
  projector_points points lens_model
  = Some (map (map (project_point lens_model)) points)
  /\ exists pixels,
       detected_pixels (fun _ => identity) points lens_model zero_vec tvec
       = Some pixels
       /\ length pixels = 10%nat
       /\ Forall (fun row => length row = 10%nat) pixels
       /\ flatten_grid pixels
          = project_points (fun _ => identity) (flatten_grid points) zero_vec
              tvec lens_model.
Proof.
  intros p points lens_model tvec.
  apply (proj1 (pixel_grids_follow_the_point_grid (fun _ => identity)
                  points lens_model zero_vec tvec)).
  - reflexivity.
  - unfold points. simpl. repeat constructor.
Defined.

Lemma sliders_start_from_projector_points_witness :
  let p := mk3 (Float32.of_Z (-20)) (Float32.of_Z (-20)) (Float32.of_Z 0) in
  let points := repeat (repeat p 10) 10 in
  let lens_model := notebook_lens_model Float32.of_Z in
  plot_with_sliders_pixels (fun _ => identity) points lens_model
    (float64_of_Z 0) (float64_of_Z 0) (float64_of_Z 0)
    (float64_of_Z 0) (float64_of_Z 0) (float64_of_Z 100)
  = projector_points (points_shifted points) lens_model.
Proof.
  intros p points lens_model.
  apply sliders_start_from_projector_points.
  - reflexivity.
  - unfold points. simpl. repeat constructor.
Defined.

(** *** The grid of points *)

Lemma repeat_eq_inv {A : Type} (a b : A) (n m : nat) :
  repeat a n = repeat b (S m) -> n = S m /\ a = b.
Proof.
  intros E. assert (Hn : n = S m).
  { apply (f_equal (@length A)) in E. rewrite !repeat_length in E. exact E. }
  subst n. simpl in E. inversion E. split; reflexivity.
Qed.

Lemma map_const_length {A B : Type} (b : B) (l : list A) :
  map (fun _ => b) l = repeat b (length l).
Proof. induction l; simpl; congruence. Qed.

(** The shape test of [np.stack] in the first cell passes exactly when both
    lists have ten elements. *)
Lemma grid_shape (xs ys : list spec_float) :
  shape_eqb (fst (meshgrid xs ys)) (zeros 10 10) = true <->
  length xs = 10%nat /\ length ys = 10%nat.
Proof.
  unfold shape_eqb, meshgrid, zeros; cbn [fst].
  rewrite map_map.
  rewrite (map_const_length (length xs) ys).
  destruct (list_eq_dec _ _ _) as [E | n]; split; try discriminate; intros H.
  - rewrite map_repeat, repeat_length in E.
    apply repeat_eq_inv in E. destruct E as [-> ->]. split; reflexivity.
  - reflexivity.
  - exfalso. apply n. destruct H as [-> ->].
    rewrite map_repeat, repeat_length. reflexivity.
Qed.

Lemma grid_points_ten (xs ys : list spec_float) :
  length xs = 10%nat -> length ys = 10%nat ->
  grid_points xs ys
  = Some (map (fun y =>
                 map (fun x => mk3 (astype_float32 x) (astype_float32 y)
                                   (S754_zero false))
                     xs)
              ys).
Proof.
  intros Hx Hy.
  do 11 (destruct xs as [|? xs]; try discriminate).
  do 11 (destruct ys as [|? ys]; try discriminate).
  reflexivity.
Qed.

Lemma grid_points_not_ten (xs ys : list spec_float) :
  length xs <> 10%nat \/ length ys <> 10%nat -> grid_points xs ys = None.
Proof.
  intros Hbad. unfold grid_points, stack_last.
  destruct (shape_eqb (fst (meshgrid xs ys)) (zeros 10 10)) eqn:E;
    [|reflexivity].
  apply grid_shape in E. exfalso. destruct E, Hbad; contradiction.
Qed.

(** The grid of the first cell.  With ten values in each list the point at
    row [i], column [j] is [(xs[j], ys[i], 0)], rounded to binary32, the
    depth being the positive zero.  With any other number of values
    [np.stack] raises, the zeros being a 10x10 array. *)
Theorem grid_points_shape_and_entries (xs ys : list spec_float) :
  (length xs = 10%nat -> length ys = 10%nat ->
   grid_points xs ys
   = Some (map (fun y =>
                  map (fun x => mk3 (astype_float32 x) (astype_float32 y)
                                    (S754_zero false))
                      xs)
               ys))
  /\ (length xs <> 10%nat \/ length ys <> 10%nat ->
      grid_points xs ys = None).
Proof.
  split; [apply grid_points_ten | apply grid_points_not_ten].
Qed.

Lemma grid_points_shape_and_entries_witness :
  let xs := map float64_of_Z [-20; -15; -10; -5; 0; 5; 10; 15; 20; 25]%Z in
  grid_points xs xs
  = Some (map (fun y =>
                 map (fun x => mk3 (astype_float32 x) (astype_float32 y)
                                   (S754_zero false))
                     xs)
              xs)
  /\ grid_points (float64_of_Z 30 :: xs) xs = None.
Proof.
  intros xs. split.
  - apply (proj1 (grid_points_shape_and_entries xs xs)); reflexivity.
  - apply (proj2 (grid_points_shape_and_entries (float64_of_Z 30 :: xs) xs)).
    left. discriminate.
Defined.

(** Projected as it is, with its depth of zero, the grid of the first cell
    gives a 10x10 grid of pixels of which no coordinate is finite, for
    every lens model that lets infinite and NaN coordinates through: the
    reason why the notebook moves the grid before it projects it. *)
Theorem grid_at_depth_zero_has_no_finite_pixel (L : Type)
    (ops : LensOps Float32.float32 L) (lens_model : L)
    (xs ys : list spec_float)
    (points : list (list (vec3 Float32.float32))) :
  propagates_nonfinite (distort_pixel lens_model) ->
  propagates_nonfinite (denormalize_pixel lens_model) ->
  grid_points xs ys = Some points ->
  exists pixels,
    projector_points points lens_model = Some pixels
    /\ length pixels = 10%nat
    /\ Forall (fun row =>
                 length row = 10%nat
                 /\ Forall (fun q => Float32.nonfinite (px q)
                                     /\ Float32.nonfinite (py q)) row)
              pixels.
Proof.
  intros Hdist Hden Hgrid.
  destruct (Nat.eq_dec (length xs) 10) as [Hx|Hx];
    [|rewrite grid_points_not_ten in Hgrid by (left; exact Hx); discriminate].
  destruct (Nat.eq_dec (length ys) 10) as [Hy|Hy];
    [|rewrite grid_points_not_ten in Hgrid by (right; exact Hy); discriminate].
  rewrite (grid_points_ten xs ys Hx Hy) in Hgrid.
  inversion Hgrid; subst points. clear Hgrid.
  eexists. split.
  - unfold projector_points.
    rewrite ProjectionFacts.project_points_simple_map.
    apply (ArraysFacts.reshape_grid_flatten (project_point lens_model)).
    + rewrite length_map. exact Hy.
    + apply Forall_map, Forall_forall. intros y _. simpl.
      rewrite length_map. exact Hx.
  - split; [rewrite !length_map; exact Hy|].
    rewrite map_map. apply Forall_map, Forall_forall. intros y _. simpl.
    split; [rewrite !length_map; exact Hx|].
    rewrite map_map. apply Forall_map, Forall_forall. intros x _. simpl.
    unfold project_point; simpl.
    apply Hden; apply Hdist; simpl;
      apply Float32Facts.div_zero_nonfinite; reflexivity.
Qed.

Lemma grid_at_depth_zero_has_no_finite_pixel_witness :
  let xs := map float64_of_Z [-20; -15; -10; -5; 0; 5; 10; 15; 20; 25]%Z in
  let points :=
    map (fun y =>
           map (fun x => mk3 (astype_float32 x) (astype_float32 y)
                             (S754_zero false))
               xs)
        xs in
  exists pixels,
    projector_points points (notebook_lens_model Float32.of_Z) = Some pixels
    /\ length pixels = 10%nat
    /\ Forall (fun row =>
                 length row = 10%nat
                 /\ Forall (fun q => Float32.nonfinite (px q)
                                     /\ Float32.nonfinite (py q)) row)
              pixels.
Proof.
  intros xs points.
  apply (@grid_at_depth_zero_has_no_finite_pixel _ _
           (notebook_lens_model Float32.of_Z) xs xs points).
  - apply ProjectionFacts.brown_conrady_distort_propagates.
  - apply ProjectionFacts.brown_conrady_denormalize_propagates.
  - apply grid_points_ten; reflexivity.
Defined.

(** *** The projection with its Jacobian *)

Section WithJacobian.

Context {F G L : Type}.
Variable astype : G -> F.
Variable projectPoints :
  list (vec3 F) -> vec3 F -> vec3 F -> L ->
  list (list (vec2 G)) * list (list G).

(** When [cv2.projectPoints] returns N image points, of shape (N, 1, 2), and
    a Jacobian of 2 N rows of at least six columns,
    [project_points_with_jacobian] returns the N pixels and N blocks of the
    Jacobian: block [i] is the rows [2 i] and [2 i + 1], the derivatives of
    the two coordinates of pixel [i], cut to their first six columns. *)
Theorem project_points_with_jacobian_layout
    (points : list (vec3 F)) (rvec tvec : vec3 F) (lens_model : L)
    (image_points : list (vec2 G)) (jacobian : list (list G)) :
  projectPoints points rvec tvec lens_model
  = (map (fun q => [q]) image_points, jacobian) ->
  length jacobian = (2 * length image_points)%nat ->
  Forall (fun row => (6 <= length row)%nat) jacobian ->
  project_points_with_jacobian astype projectPoints points rvec tvec
    lens_model
  = Some (map (fun q => mk2 (astype (px q)) (astype (py q))) image_points,
          map (fun i =>
                 [map astype (firstn 6 (nth (2 * i) jacobian []));
                  map astype (firstn 6 (nth (S (2 * i)) jacobian []))])
              (seq 0 (length image_points))).
Proof.
  intros Hcv Hlen Hcols. unfold project_points_with_jacobian.
  rewrite Hcv; cbn [fst snd].
  rewrite ArraysFacts.first_of_axis1_singletons.
  unfold take_columns. rewrite map_map.
  rewrite (@ArraysFacts.reshape_blocks_pairs _ _ (length image_points)).
  - f_equal. f_equal. apply map_ext. intros i.
    set (g := fun row : list G => firstn 6 (map astype row)).
    change (@nil F) with (g []).
    rewrite !map_nth. unfold g. rewrite !firstn_map. reflexivity.
  - rewrite length_map. exact Hlen.
  - apply Forall_map. eapply Forall_impl; [|exact Hcols].
    intros row Hrow. cbv beta in *. rewrite length_firstn, length_map.
    apply Nat.min_l. exact Hrow.
Qed.

End WithJacobian.

(** One point, with a Jacobian of two rows of ten columns. *)
Lemma project_points_with_jacobian_layout_witness :
  let cv (points : list (vec3 Z)) (rvec tvec : vec3 Z) (lens_model : unit) :=
    (map (fun p => [mk2 (vx p) (vy p)]) points,
     concat (map (fun p => [map (Z.add (vx p)) (Search.indices 10);
                            map (Z.add (vy p)) (Search.indices 10)])
                 points)) in
  project_points_with_jacobian (fun z => z) cv [mk3 7 8 9]%Z
    (mk3 0 0 0)%Z (mk3 0 0 1)%Z tt
  = Some ([mk2 7 8]%Z, [[[7; 8; 9; 10; 11; 12]; [8; 9; 10; 11; 12; 13]]]%Z).
Proof.
  intros cv.
  apply (project_points_with_jacobian_layout (fun z : Z => z) cv
           [mk3 7 8 9]%Z (mk3 0 0 0)%Z (mk3 0 0 1)%Z tt [mk2 7 8]%Z
           (jacobian := [map (Z.add 7) (Search.indices 10);
                         map (Z.add 8) (Search.indices 10)])).
  - reflexivity.
  - reflexivity.
  - repeat constructor.
Defined.

(** *** The last cell *)

Lemma isclose_nan (rtol atol b : Float32.float32) :
  isclose rtol atol Float32.nan b = false.
Proof. destruct b; reflexivity. Qed.

(** Whatever the points, the detected pixels, the lens model and the pose to
    find, the last cell reports that the solution is incorrect: [solve_pnp]
    returns nothing, the vectors found are NaN, and NaN is close to no
    number. *)
Theorem last_cell_reports_incorrect (L : Type)
    (ops : LensOps Float32.float32 L)
    (points : list (vec3 Float32.float32))
    (detected_pixels : list (vec2 Float32.float32)) (lens_model : L)
    (rvec_to_find tvec_to_find : vec3 Float32.float32) :
  solution (all_close points detected_pixels lens_model rvec_to_find
              tvec_to_find)
  = incorrect.
Proof.
  unfold all_close, pnp_cell, solve_pnp, found_or_nan.
  rewrite !ProjectionFacts.scale_nan. cbn [fst snd].
  unfold allclose, nan_vec; cbn [vx vy vz].
  rewrite !isclose_nan. reflexivity.
Qed.

End NotebookFacts.
